(** * audit-scraper: sanitizer, record model, listing parser, filter and
      download engine, embedded from the Python sources

    Python [str] values are lists of Unicode code points ([Z]); [bytes] values
    are lists of octets ([Z]).  Library functions the sources call
    ([re.sub], [str.strip], [os.path.splitext], [pathlib], the UTF-8 codec)
    are embedded from their documented behaviour, next to the repository
    functions that use them. *)

From Stdlib Require Import ZArith Lia Ascii String DecimalZ.
From stdpp Require Import gmap list strings.

Local Open Scope Z_scope.
Set Warnings "-register-all".

(* ===================================================================== *)
(** ** Python text                                                        *)
(* ===================================================================== *)

Definition str := list Z.
Definition bytes := list Z.

Definition chr (a : ascii) : Z := Z.of_N (N_of_ascii a).

(** An ASCII literal as a Python string. *)
Definition py (s : string) : str := map chr (list_ascii_of_string s).

Definition ch_underscore : Z := Eval cbv in chr "_".
Definition ch_dot : Z := Eval cbv in chr ".".
Definition ch_space : Z := Eval cbv in chr " ".
Definition ch_slash : Z := Eval cbv in chr "/".
Definition ch_backslash : Z := Eval cbv in chr "\".
Definition ch_minus : Z := Eval cbv in chr "-".
Definition ch_zero : Z := Eval cbv in chr "0".

Fixpoint drop_while {A} (p : A → bool) (l : list A) : list A :=
  match l with
  | [] => []
  | x :: t => if p x then drop_while p t else l
  end.

Fixpoint take_while {A} (p : A → bool) (l : list A) : list A :=
  match l with
  | [] => []
  | x :: t => if p x then x :: take_while p t else []
  end.

(** [c in chars], for the character-set argument of [str.strip]. *)
Definition in_chars (chars : str) (c : Z) : bool := existsb (Z.eqb c) chars.

Definition lstrip_by (p : Z → bool) (s : str) : str := drop_while p s.
Definition rstrip_by (p : Z → bool) (s : str) : str :=
  reverse (drop_while p (reverse s)).
Definition strip_by (p : Z → bool) (s : str) : str :=
  rstrip_by p (lstrip_by p s).

(** [s.lstrip(chars)], [s.rstrip(chars)], [s.strip(chars)] *)
Definition lstrip (chars s : str) : str := lstrip_by (in_chars chars) s.
Definition rstrip (chars s : str) : str := rstrip_by (in_chars chars) s.
Definition strip (chars s : str) : str := strip_by (in_chars chars) s.

(** [s.rfind(c)]: index of the last occurrence, [-1] when there is none. *)
Fixpoint rfind_nat (c : Z) (s : str) : option nat :=
  match s with
  | [] => None
  | x :: t =>
      match rfind_nat c t with
      | Some i => Some (S i)
      | None => if x =? c then Some 0%nat else None
      end
  end.

Definition rfind (c : Z) (s : str) : Z :=
  match rfind_nat c s with
  | Some i => Z.of_nat i
  | None => -1
  end.

(** Truthiness of a string: [if s:] holds for the non-empty ones. *)
Definition truthy (s : str) : bool :=
  match s with [] => false | _ => true end.

(** [s or default]. *)
Definition or_default (s default : str) : str :=
  if truthy s then s else default.

(* ===================================================================== *)
(** ** [re.sub] for the patterns of models.py                             *)
(* ===================================================================== *)

(** A compiled pattern, given by its matcher at one position:
    [pat s = Some n] when the pattern matches exactly the first [n]
    characters of [s].  None of the patterns below matches the empty
    string. *)
Definition pattern := str → option nat.

(** [re.sub] scans left to right; at a position where the pattern matches,
    the replacement (a function of the matched text, so that a template such
    as [\1] is covered) is emitted and the scan resumes after the match;
    elsewhere the character is copied.  [skip] counts the characters of the
    current match still to be passed over. *)
Fixpoint re_sub_from (skip : nat) (pat : pattern) (repl : str → str)
         (s : str) : str :=
  match s with
  | [] => []
  | c :: t =>
      match skip with
      | S k => re_sub_from k pat repl t
      | O =>
          match pat s with
          | Some (S n) => repl (take (S n) s) ++ re_sub_from n pat repl t
          | _ => c :: re_sub_from O pat repl t
          end
      end
  end.

Definition re_sub (pat : pattern) (repl : str → str) (s : str) : str :=
  re_sub_from O pat repl s.

Definition run_length (p : Z → bool) (s : str) : nat :=
  length (take_while p s).

(** The pattern [[class]+]: the longest non-empty run of class members. *)
Definition pat_class_plus (p : Z → bool) : pattern :=
  λ s, match run_length p s with O => None | n => Some n end.

Definition in_range (lo hi c : Z) : bool := (lo <=? c) && (c <=? hi).

(** The class [A-Za-z0-9._-]. *)
Definition allowed (c : Z) : bool :=
  in_range (chr "A") (chr "Z") c || in_range (chr "a") (chr "z") c
  || in_range (chr "0") (chr "9") c
  || (c =? ch_dot) || (c =? ch_underscore) || (c =? ch_minus).

Definition is_underscore (c : Z) : bool := c =? ch_underscore.

(** [[^A-Za-z0-9._-]+] *)
Definition pat_invalid_chars : pattern := pat_class_plus (λ c, negb (allowed c)).

(** [_+] *)
Definition pat_underscores : pattern := pat_class_plus is_underscore.

(** [_+(\.)]: the greedy run of underscores must be followed at once by a
    dot; giving back underscores cannot help, the character after a shorter
    run being an underscore. *)
Definition pat_underscores_dot : pattern :=
  λ s, match run_length is_underscore s with
       | O => None
       | n => match s !! n with
              | Some c => if c =? ch_dot then Some (S n) else None
              | None => None
              end
       end.

(** The template [\1] for [_+(\.)]: group 1 is the last character matched. *)
Definition repl_group1 (matched : str) : str :=
  drop (length matched - 1) matched.

(* ===================================================================== *)
(** ** The UTF-8 codec                                                    *)
(* ===================================================================== *)

Definition is_surrogate (c : Z) : bool := in_range 0xD800 0xDFFF c.

(** One code point; [None] where [str.encode] raises [UnicodeEncodeError]. *)
Definition encode_char (c : Z) : option bytes :=
  if c <? 0 then None
  else if c <? 0x80 then Some [c]
  else if c <? 0x800 then
    Some [Z.lor 0xC0 (Z.shiftr c 6); Z.lor 0x80 (Z.land c 0x3F)]
  else if c <? 0x10000 then
    if is_surrogate c then None
    else Some [Z.lor 0xE0 (Z.shiftr c 12);
               Z.lor 0x80 (Z.land (Z.shiftr c 6) 0x3F);
               Z.lor 0x80 (Z.land c 0x3F)]
  else if c <? 0x110000 then
    Some [Z.lor 0xF0 (Z.shiftr c 18);
          Z.lor 0x80 (Z.land (Z.shiftr c 12) 0x3F);
          Z.lor 0x80 (Z.land (Z.shiftr c 6) 0x3F);
          Z.lor 0x80 (Z.land c 0x3F)]
  else None.

(** [s.encode("utf-8")] *)
Fixpoint str_encode (s : str) : option bytes :=
  match s with
  | [] => Some []
  | c :: t =>
      match encode_char c, str_encode t with
      | Some b, Some bs => Some (b ++ bs)
      | _, _ => None
      end
  end.

Definition is_cont (b : Z) : bool := in_range 0x80 0xBF b.

Definition decode2 (b0 b1 : Z) : option Z :=
  if in_range 0xC2 0xDF b0 && is_cont b1
  then Some (Z.lor (Z.shiftl (Z.land b0 0x1F) 6) (Z.land b1 0x3F))
  else None.

Definition decode3 (b0 b1 b2 : Z) : option Z :=
  let c := Z.lor (Z.shiftl (Z.land b0 0x0F) 12)
             (Z.lor (Z.shiftl (Z.land b1 0x3F) 6) (Z.land b2 0x3F)) in
  if in_range 0xE0 0xEF b0 && is_cont b1 && is_cont b2
     && (0x800 <=? c) && negb (is_surrogate c)
  then Some c else None.

Definition decode4 (b0 b1 b2 b3 : Z) : option Z :=
  let c := Z.lor (Z.shiftl (Z.land b0 0x07) 18)
             (Z.lor (Z.shiftl (Z.land b1 0x3F) 12)
                (Z.lor (Z.shiftl (Z.land b2 0x3F) 6) (Z.land b3 0x3F))) in
  if in_range 0xF0 0xF4 b0 && is_cont b1 && is_cont b2 && is_cont b3
     && (0x10000 <=? c) && (c <? 0x110000)
  then Some c else None.

(** [b.decode("utf-8", "ignore")]: a well-formed sequence gives its code
    point; any other byte is dropped and decoding resumes at the next one. *)
Fixpoint bytes_decode_ignore (b : bytes) : str :=
  match b with
  | [] => []
  | b0 :: t =>
      if in_range 0 0x7F b0 then b0 :: bytes_decode_ignore t
      else
        match t with
        | [] => []
        | b1 :: t1 =>
            match decode2 b0 b1 with
            | Some c => c :: bytes_decode_ignore t1
            | None =>
                match t1 with
                | [] => bytes_decode_ignore t
                | b2 :: t2 =>
                    match decode3 b0 b1 b2 with
                    | Some c => c :: bytes_decode_ignore t2
                    | None =>
                        match t2 with
                        | [] => bytes_decode_ignore t
                        | b3 :: t3 =>
                            match decode4 b0 b1 b2 b3 with
                            | Some c => c :: bytes_decode_ignore t3
                            | None => bytes_decode_ignore t
                            end
                        end
                    end
                end
            end
        end
  end.

(* ===================================================================== *)
(** ** models.py: the sanitizer                                           *)
(* ===================================================================== *)

Definition MAX_FILENAME_BYTES : Z := 200.

(** [_SANITIZE_TRANSLATION]: [pattern.sub("_", value)] for
    [[^A-Za-z0-9._-]+]. *)
Definition _SANITIZE_TRANSLATION (value : str) : str :=
  re_sub pat_invalid_chars (λ _, py "_") value.

(** [os.path.splitext] ([genericpath._splitext] with [sep = "/"], no
    [altsep], [extsep = "."]). *)
Definition splitext (p : str) : str * str :=
  let sepIndex := rfind ch_slash p in
  let dotIndex := rfind ch_dot p in
  if (sepIndex <? dotIndex)
     && existsb (λ c, negb (c =? ch_dot))
          (take (Z.to_nat (dotIndex - (sepIndex + 1)))
                (drop (Z.to_nat (sepIndex + 1)) p))
  then (take (Z.to_nat dotIndex) p, drop (Z.to_nat dotIndex) p)
  else (p, []).

Definition strip_chars : str := py "._ ".

(** [re.sub(r"_+", "_", s)] *)
Definition collapse_underscores (s : str) : str :=
  re_sub pat_underscores (λ _, py "_") s.

(** [re.sub(r"_+(\.)", r"\1", s)] *)
Definition drop_underscores_before_dot (s : str) : str :=
  re_sub pat_underscores_dot repl_group1 s.

(** Lines 36-40 of [sanitize_filename]: the result before the length check. *)
Definition sanitize_filename_pre (name : str) : str :=
  let sanitized := _SANITIZE_TRANSLATION name in
  let sanitized := collapse_underscores sanitized in
  let sanitized := drop_underscores_before_dot sanitized in
  let sanitized := strip strip_chars sanitized in
  or_default sanitized (py "report.pdf").

(** Lines 46-57 of [sanitize_filename]: the truncation branch. *)
Definition sanitize_filename_truncate (sanitized : str) : option str :=
  let '(stem, ext) := splitext sanitized in
  let ext := if truthy ext then ext else py ".pdf" in
  ext_bytes ← str_encode ext;
  let available := Z.max 1 (MAX_FILENAME_BYTES - Z.of_nat (length ext_bytes)) in
  stem_bytes ← str_encode stem;
  let truncated_stem_bytes := take (Z.to_nat available) stem_bytes in
  let truncated_stem :=
    rstrip strip_chars (bytes_decode_ignore truncated_stem_bytes) in
  let truncated_stem :=
    if truthy truncated_stem then truncated_stem else py "report" in
  Some (truncated_stem ++ ext).

(** [sanitize_filename]; [None] where an [encode] call would raise. *)
Definition sanitize_filename (name : str) : option str :=
  let sanitized := sanitize_filename_pre name in
  encoded ← str_encode sanitized;
  if Z.of_nat (length encoded) <=? MAX_FILENAME_BYTES then Some sanitized
  else sanitize_filename_truncate sanitized.

Definition sanitize_directory_name (name : str) : str :=
  let sanitized := _SANITIZE_TRANSLATION name in
  let sanitized := strip strip_chars sanitized in
  or_default sanitized (py "Unknown-Year").

(* ===================================================================== *)
(** ** pathlib (pure POSIX paths)                                         *)
(* ===================================================================== *)

(** A path is its tuple of [parts]; an absolute path starts with its root
    ("/" or "//"), [Path(".")] is the empty tuple. *)
Definition Path := list str.

Fixpoint split_on (sep : Z) (s : str) : list str :=
  match s with
  | [] => [[]]
  | c :: t =>
      if c =? sep then [] :: split_on sep t
      else match split_on sep t with
           | h :: r => (c :: h) :: r
           | [] => [[c]]
           end
  end.

Definition str_eqb (a b : str) : bool := bool_decide (a = b).

(** The root of a path string: exactly two leading slashes are kept, any
    other number of them is one slash. *)
Definition root_of (s : str) : option str :=
  match s with
  | c0 :: c1 :: c2 :: _ =>
      if (c0 =? ch_slash) && (c1 =? ch_slash) && negb (c2 =? ch_slash)
      then Some (py "//")
      else if c0 =? ch_slash then Some (py "/") else None
  | [c0; c1] =>
      if (c0 =? ch_slash) && (c1 =? ch_slash) then Some (py "//")
      else if c0 =? ch_slash then Some (py "/") else None
  | [c0] => if c0 =? ch_slash then Some (py "/") else None
  | [] => None
  end.

(** Parsing drops empty components and ["."] components. *)
Definition parse_parts (s : str) : Path :=
  let comps :=
    filter (λ c, c ≠ [] ∧ c ≠ py ".") (split_on ch_slash s) in
  match root_of s with
  | Some r => r :: comps
  | None => comps
  end.

(** [p / s]: an absolute right operand replaces the left one. *)
Definition path_div (p : Path) (s : str) : Path :=
  match root_of s with
  | Some _ => parse_parts s
  | None => p ++ parse_parts s
  end.

Definition is_root (c : str) : bool := str_eqb c (py "/") || str_eqb c (py "//").

(** [p.parent] *)
Definition path_parent (p : Path) : Path :=
  match p with
  | [] => []
  | [c] => if is_root c then p else []
  | _ => removelast p
  end.

(** [p.name] *)
Definition path_name (p : Path) : str :=
  match p with
  | [c] => if is_root c then [] else c
  | _ => List.last p []
  end.

(* ===================================================================== *)
(** ** models.py: [Report]                                                *)
(* ===================================================================== *)

Record Report := {
  serial : Z;
  title : str;
  date_text : str;
  download_url : str;
  year_code : option str;
  year_label : option str;
  report_code : option str;
  type_code : option str;
  is_active : option bool
}.

Fixpoint uint_digits (u : Decimal.uint) : str :=
  match u with
  | Decimal.Nil => []
  | Decimal.D0 u => chr "0" :: uint_digits u
  | Decimal.D1 u => chr "1" :: uint_digits u
  | Decimal.D2 u => chr "2" :: uint_digits u
  | Decimal.D3 u => chr "3" :: uint_digits u
  | Decimal.D4 u => chr "4" :: uint_digits u
  | Decimal.D5 u => chr "5" :: uint_digits u
  | Decimal.D6 u => chr "6" :: uint_digits u
  | Decimal.D7 u => chr "7" :: uint_digits u
  | Decimal.D8 u => chr "8" :: uint_digits u
  | Decimal.D9 u => chr "9" :: uint_digits u
  end.

(** The decimal digits of [|n|]. *)
Definition abs_digits (n : Z) : str := uint_digits (N.to_uint (Z.abs_N n)).

(** [f"{n:04d}"]: zero-filled to width 4, the fill going between the sign
    and the digits and the sign counting towards the width. *)
Definition format_04d (n : Z) : str :=
  let sign := if n <? 0 then py "-" else [] in
  let digits := abs_digits n in
  sign ++ replicate (4 - length sign - length digits)%nat ch_zero ++ digits.

(** [Report.target_path]; [None] where [sanitize_filename] would raise. *)
Definition target_path (self : Report) (base_dir : Path) : option Path :=
  let directory := base_dir in
  let directory :=
    match year_label self with
    | Some label =>
        if truthy label then path_div directory (sanitize_directory_name label)
        else directory
    | None => directory
    end in
  filename ← sanitize_filename
               (format_04d (serial self) ++ py "_" ++ title self ++ py ".pdf");
  Some (path_div directory filename).

Definition sample_report : Report :=
  {| serial := 3; title := py "Report with / invalid : chars";
     date_text := py "March 03, 2021"; download_url := py "/file.pdf";
     year_code := Some (py "y2"); year_label := Some (py "2010-2011");
     report_code := None; type_code := None; is_active := None |}.

(* ===================================================================== *)
(** ** Library functions left abstract                                    *)
(* ===================================================================== *)

(** The document tree BeautifulSoup builds: text, nodes [get_text] never
    reports (comments and the like), and tags with their attribute dict. *)
Inductive node :=
| Text (s : str)
| Comment (s : str)
| Elem (name : str) (attrs : gmap str str) (children : list node).

(** [str.lower] (full Unicode; the empty string is its own lower case),
    [int(text)] ([None] for [ValueError]),
    [BeautifulSoup(html, "html.parser")] (the top-level nodes) and
    [urllib.parse.urljoin]. *)
Class Externals := {
  str_lower : str → str;
  str_lower_nil : str_lower [] = [];
  py_int : str → option Z;
  html_parser : str → list node;
  urljoin : str → str → str
}.

(* ===================================================================== *)
(** ** BeautifulSoup tree queries                                         *)
(* ===================================================================== *)

(** [str.isspace] per code point, for [str.strip()] without argument. *)
Definition py_isspace (c : Z) : bool :=
  in_range 0x09 0x0D c || in_range 0x1C 0x20 c || (c =? 0x85) || (c =? 0xA0)
  || (c =? 0x1680) || in_range 0x2000 0x200A c || (c =? 0x2028)
  || (c =? 0x2029) || (c =? 0x202F) || (c =? 0x205F) || (c =? 0x3000).

Definition strip_ws (s : str) : str := strip_by py_isspace s.

(** [sep.join(parts)] *)
Fixpoint join (sep : str) (parts : list str) : str :=
  match parts with
  | [] => []
  | [x] => x
  | x :: rest => x ++ sep ++ join sep rest
  end.

(** All nodes below [n], in document order. *)
Fixpoint descendants (n : node) : list node :=
  match n with
  | Elem _ _ cs =>
      (fix go (l : list node) : list node :=
         match l with
         | [] => []
         | c :: r => c :: descendants c ++ go r
         end) cs
  | _ => []
  end.

Definition is_tag (name : str) (n : node) : bool :=
  match n with
  | Elem nm _ _ => str_eqb nm name
  | _ => false
  end.

(** [tag.find_all(name)] and [tag.find(name)] *)
Definition find_all (name : str) (n : node) : list node :=
  List.filter (is_tag name) (descendants n).

Definition find (name : str) (n : node) : option node :=
  head (find_all name n).

(** [tag.get(key)] *)
Definition get (n : node) (key : str) : option str :=
  match n with
  | Elem _ attrs _ => attrs !! key
  | _ => None
  end.

Definition node_string (n : node) : option str :=
  match n with
  | Text s => Some s
  | _ => None
  end.

(** [tag._all_strings(strip)]: with [strip], every string is stripped and
    the ones left empty are skipped. *)
Definition all_strings (strip : bool) (n : node) : list str :=
  let strings := omap node_string (descendants n) in
  if strip then List.filter truthy (map strip_ws strings) else strings.

(** [tag.get_text(separator, strip=...)] and [tag.text] *)
Definition get_text (separator : str) (strip : bool) (n : node) : str :=
  join separator (all_strings strip n).

Definition text (n : node) : str := get_text [] false n.

(** A CSS selector [s1 s2 ... sk] of simple selectors joined by the
    descendant combinator. *)
Inductive simple_selector :=
| ById (id : str)
| ByTag (name : str).

Definition matches (sel : simple_selector) (n : node) : bool :=
  match n, sel with
  | Elem _ attrs _, ById i => bool_decide (attrs !! py "id" = Some i)
  | Elem nm _ _, ByTag t => str_eqb nm t
  | _, _ => false
  end.

(** [sels] is what is still to be matched, the selectors before it having
    been matched by ancestors of [n]: [n] is reported when it matches the
    last selector, and the nodes below [n] go on with the next selector once
    [n] matches the current one. *)
Definition select_hit (sels : list simple_selector) (n : node) : list node :=
  match sels with
  | [s] => if matches s n then [n] else []
  | _ => []
  end.

Definition select_below (sels : list simple_selector) (n : node)
  : list simple_selector :=
  match sels with
  | s :: (_ :: _) as rest => if matches s n then rest else sels
  | _ => sels
  end.

Fixpoint select_in (sels : list simple_selector) (n : node) {struct n}
  : list node :=
  match n with
  | Elem _ _ cs =>
      select_hit sels n
      ++ (fix go (l : list node) : list node :=
            match l with
            | [] => []
            | c :: r => select_in (select_below sels n) c ++ go r
            end) cs
  | _ => []
  end.

(** [soup.select(selector)]: the matches in document order. *)
Definition select (sels : list simple_selector) (soup : list node)
  : list node :=
  flat_map (select_in sels) soup.

(* ===================================================================== *)
(** ** parser.py                                                          *)
(* ===================================================================== *)

Definition opt_truthy (o : option str) : bool :=
  match o with
  | Some s => truthy s
  | None => false
  end.

(** [s or None] *)
Definition or_None (s : str) : option str :=
  if truthy s then Some s else None.

(** [mapping.setdefault(key, value)] *)
Definition setdefault (key value : str) (mapping : gmap str str)
  : gmap str str :=
  match mapping !! key with
  | Some _ => mapping
  | None => <[key := value]> mapping
  end.

(** The body of the loop of [_extract_year_mapping]. *)
Definition year_mapping_step (mapping : gmap str str) (option : node)
  : gmap str str :=
  let value := get option (py "value") in
  let text := strip_ws (text option) in
  match value with
  | Some v =>
      if negb (truthy v) || negb (truthy text) then mapping
      else setdefault (strip_ws v) text mapping
  | None => mapping
  end.

(** ["#year option"] *)
Definition year_option_selector : list simple_selector :=
  [ById (py "year"); ByTag (py "option")].

Definition _extract_year_mapping (soup : list node) : gmap str str :=
  fold_left year_mapping_step (select year_option_selector soup) ∅.

(** ["#myTable tbody tr"] *)
Definition row_selector : list simple_selector :=
  [ById (py "myTable"); ByTag (py "tbody"); ByTag (py "tr")].

Definition _safe_cell_text (cells : list node) (index : nat) : str :=
  match cells !! index with
  | Some cell => get_text [] true cell
  | None => []
  end.

Section parser.
Context `{Externals}.

Definition parse_is_active (status_text : str) : option bool :=
  if truthy status_text then
    let lowered := str_lower status_text in
    if str_eqb lowered (py "true") || str_eqb lowered (py "false")
    then Some (str_eqb lowered (py "true"))
    else None
  else None.

Definition _parse_row (tr : node) (year_map : gmap str str)
  : option Report :=
  let cells := find_all (py "td") tr in
  if (length cells <? 4)%nat then None
  else
    match cells with
    | c0 :: c1 :: c2 :: c3 :: _ =>
        match py_int (get_text [] true c0) with
        | None => None
        | Some serial =>
            let title := get_text (py " ") true c1 in
            let date_text := get_text [] true c2 in
            let link_tag := find (py "a") c3 in
            let href :=
              match link_tag with
              | Some a => get a (py "href")
              | None => None
              end in
            match href with
            | None => None
            | Some href =>
                if negb (truthy href) then None
                else
                  let year_code := _safe_cell_text cells 4 in
                  let report_code := _safe_cell_text cells 5 in
                  let type_code := _safe_cell_text cells 6 in
                  let status_text := _safe_cell_text cells 7 in
                  Some {| serial := serial;
                          title := title;
                          date_text := date_text;
                          download_url := href;
                          year_code := or_None year_code;
                          year_label :=
                            if truthy year_code
                            then year_map !! strip_ws (or_default year_code [])
                            else None;
                          report_code := or_None report_code;
                          type_code := or_None type_code;
                          is_active := parse_is_active status_text |}
            end
        end
    | _ => None
    end.

(** The loop of [parse_reports]: [rows.append(report)] for every row
    that parses. *)
Definition parse_reports (html : str) : list Report :=
  let soup := html_parser html in
  let year_map := _extract_year_mapping soup in
  fold_left
    (λ rows tr,
       match _parse_row tr year_map with
       | Some report => rows ++ [report]
       | None => rows
       end)
    (select row_selector soup)
    [].
End parser.

(* ===================================================================== *)
(** ** scraper.py: the filter                                             *)
(* ===================================================================== *)

(** [s.startswith(prefix)] *)
Fixpoint startswith (prefix s : str) : bool :=
  match prefix, s with
  | [], _ => true
  | p :: ps, c :: cs => (p =? c) && startswith ps cs
  | _ :: _, [] => false
  end.

(** [needle in haystack] on strings. *)
Fixpoint contains (needle haystack : str) : bool :=
  startswith needle haystack
  || match haystack with
     | [] => false
     | _ :: t => contains needle t
     end.

(** [filter(None, values)] over optional strings: [None] and the empty
    string are both left out. *)
Definition filter_None (values : list (option str)) : list str :=
  List.filter truthy (omap id values).

Section filter.
Context `{Externals}.

(** [{value.lower() for value in values}] *)
Definition lower_set (values : list str) : gset str :=
  list_to_set (str_lower <$> values).

Definition year_filter (normalized : gset str) (report : Report) : bool :=
  let candidates := filter_None [year_code report; year_label report] in
  let normalized_values := lower_set candidates in
  bool_decide (normalized_values ∩ normalized ≠ ∅).

Definition query_filter (lowered : str) (report : Report) : bool :=
  contains lowered (str_lower (title report)).

Definition filter_reports (reports : list Report)
           (years : option (list str)) (query : option str)
  : list Report :=
  let year_filter :=
    match years with
    | Some (y :: ys) => Some (year_filter (lower_set (y :: ys)))
    | _ => None
    end in
  let query_filter :=
    match query with
    | Some q => if truthy q then Some (query_filter (str_lower q)) else None
    | None => None
    end in
  fold_left
    (λ filtered report,
       if match year_filter with
          | Some f => negb (f report)
          | None => false
          end
       then filtered
       else if match query_filter with
               | Some f => negb (f report)
               | None => false
               end
       then filtered
       else filtered ++ [report])
    reports [].
End filter.

(* ===================================================================== *)
(** ** The world of the download engine                                   *)
(* ===================================================================== *)

Inductive exn :=
| UnicodeEncodeError
| ValueError
| OSError (p : Path)
| RequestException (url : str)
| DownloadError (title : str).

(** A response fetched with [stream=True]: the status line has arrived,
    the body has not.  [iter_content] hands out the chunks that arrive, and
    where [stream_breaks] holds the connection is lost after them: the
    iterator raises in place of a further chunk. *)
Record Response := {
  status_code : Z;
  iter_content : list bytes;
  stream_breaks : bool
}.

(** Regular files with their contents, directories, the requests sent so
    far (URL and timeout) and what the remote side answers ([None]: the
    transport fails). *)
Record World := {
  fs_files : gmap Path bytes;
  fs_dirs : gset Path;
  requests_log : list (str * Z);
  remote : str → option Response
}.

Inductive outcome (A : Type) :=
| Returns (a : A)
| Raises (e : exn).
Arguments Returns {A} a.
Arguments Raises {A} e.

(** Computations that read and change the world and may raise. *)
Definition IO (A : Type) : Type := World → outcome A * World.

Definition io_ret {A} (a : A) : IO A := λ w, (Returns a, w).
Definition io_raise {A} (e : exn) : IO A := λ w, (Raises e, w).
Definition io_bind {A B} (m : IO A) (k : A → IO B) : IO B :=
  λ w, match m w with
       | (Returns a, w') => k a w'
       | (Raises e, w') => (Raises e, w')
       end.

Notation "'let*' x ':=' m 'in' k" := (io_bind m (λ x, k))
  (at level 10, x name, m at level 100, k at level 200).

Fixpoint io_mapM {A B} (f : A → IO B) (l : list A) : IO (list B) :=
  match l with
  | [] => io_ret []
  | x :: t =>
      let* y := f x in
      let* ys := io_mapM f t in
      io_ret (y :: ys)
  end.

(** The tasks submitted to a thread pool: every one of them runs, also
    after another has raised, and each keeps its own outcome in its
    future. *)
Fixpoint run_all {A B} (f : A → IO B) (l : list A) (w : World)
  : list (outcome B) * World :=
  match l with
  | [] => ([], w)
  | x :: t =>
      let '(o, w1) := f x w in
      let '(os, w2) := run_all f t w1 in
      (o :: os, w2)
  end.

(** The loop over the finished futures: [future.result()] gives the value
    or re-raises, and the first exception met leaves the loop. *)
Fixpoint collect_results {B} (futures : list (outcome B))
  : outcome (list B) :=
  match futures with
  | [] => Returns []
  | Raises e :: _ => Raises e
  | Returns b :: rest =>
      match collect_results rest with
      | Returns bs => Returns (b :: bs)
      | Raises e => Raises e
      end
  end.

Definition io_of_option {A} (e : exn) (o : option A) : IO A :=
  match o with
  | Some a => io_ret a
  | None => io_raise e
  end.

Definition is_file (w : World) (p : Path) : bool :=
  bool_decide (is_Some (fs_files w !! p)).

(** The current directory ([Path(".")]) and the roots always exist. *)
Definition is_dir (w : World) (p : Path) : bool :=
  match p with
  | [] => true
  | [c] => is_root c || bool_decide (p ∈ fs_dirs w)
  | _ => bool_decide (p ∈ fs_dirs w)
  end.

Definition add_dir (p : Path) (w : World) : World :=
  {| fs_files := fs_files w; fs_dirs := {[p]} ∪ fs_dirs w;
     requests_log := requests_log w; remote := remote w |}.

(** [p.mkdir(parents=True, exist_ok=True)] on the reversed parts [rp] of
    [p]: an existing directory is accepted, a regular file at [p] or at its
    parent raises, a missing parent is made first. *)
Fixpoint mkdir_parents (rp : list str) (w : World) : outcome unit * World :=
  let p := reverse rp in
  if is_dir w p then (Returns (), w)
  else if is_file w p then (Raises (OSError p), w)
  else
    match rp with
    | [] => (Returns (), w)
    | _ :: rparent =>
        let parent := reverse rparent in
        if is_file w parent then (Raises (OSError parent), w)
        else if is_dir w parent then (Returns (), add_dir p w)
        else
          match mkdir_parents rparent w with
          | (Returns _, w') => (Returns (), add_dir p w')
          | (Raises e, w') => (Raises e, w')
          end
    end.

Definition mkdir (p : Path) : IO unit := mkdir_parents (reverse p).

(** [p.exists()] *)
Definition path_exists (p : Path) : IO bool :=
  λ w, (Returns (is_dir w p || is_file w p), w).

(** [requests.get(url, stream=True, timeout=timeout)] *)
Definition requests_get (url : str) (timeout : Z) : IO Response :=
  λ w,
    let w' := {| fs_files := fs_files w; fs_dirs := fs_dirs w;
                 requests_log := requests_log w ++ [(url, timeout)];
                 remote := remote w |} in
    match remote w url with
    | Some response => (Returns response, w')
    | None => (Raises (RequestException url), w')
    end.

(** [response.raise_for_status()], an [HTTPError] being re-raised by the
    caller as [DownloadError]. *)
Definition is_http_error (response : Response) : bool :=
  (400 <=? status_code response) && (status_code response <? 600).

(** [p.open("wb")]: the file is created or emptied. *)
Definition open_wb (p : Path) : IO unit :=
  λ w,
    if is_dir w p || negb (is_dir w (path_parent p))
    then (Raises (OSError p), w)
    else (Returns (),
          {| fs_files := <[p := []]> (fs_files w); fs_dirs := fs_dirs w;
             requests_log := requests_log w; remote := remote w |}).

(** [handle.write(chunk)]: the bytes are appended to the open file. *)
Definition write (p : Path) (chunk : bytes) : IO unit :=
  λ w,
    (Returns (),
     {| fs_files := <[p := default [] (fs_files w !! p) ++ chunk]> (fs_files w);
        fs_dirs := fs_dirs w;
        requests_log := requests_log w; remote := remote w |}).

(** The loop of lines 147-149 over the body of the response fetched from
    [url]: each non-empty chunk is written as it arrives, and when the
    connection breaks the iterator raises out of the loop, with what was
    written so far left in the file. *)
Fixpoint write_chunks (p : Path) (url : str) (chunks : list bytes)
         (breaks : bool) : IO unit :=
  match chunks with
  | [] => if breaks then io_raise (RequestException url) else io_ret ()
  | chunk :: rest =>
      let* _ := (match chunk with [] => io_ret () | _ => write p chunk end) in
      write_chunks p url rest breaks
  end.

(* ===================================================================== *)
(** ** scraper.py: the download engine                                    *)
(* ===================================================================== *)

Definition BASE_URL : str := py "https://agp.gov.pk".

Section download.
Context `{Externals}.

Definition _download_single (report : Report) (output_dir : Path)
           (overwrite : bool) (timeout : Z) : IO Path :=
  let* target := io_of_option UnicodeEncodeError
                   (target_path report output_dir) in
  let* _ := mkdir (path_parent target) in
  let* present := path_exists target in
  if present && negb overwrite then io_ret target
  else
    let url := urljoin BASE_URL (download_url report) in
    let* response := requests_get url timeout in
    let* _ := (if is_http_error response
               then io_raise (DownloadError (title report))
               else io_ret ()) in
    let* _ := open_wb target in
    let* _ := write_chunks target url (iter_content response)
                           (stream_breaks response) in
    io_ret target.

(** [ThreadPoolExecutor] refuses [max_workers <= 0].  In the live branch
    every report is submitted and every worker runs, also after another
    has raised, since leaving the [with] block waits for all of them; the
    loop over the futures then returns the paths or re-raises the first
    exception it meets.  The workers run one after the other and finish in
    submission order: the schedule of a pool with a single thread. *)
Definition download_reports (reports : list Report) (output_dir : Path)
           (max_workers : Z) (overwrite dry_run : bool) (timeout : Z)
  : IO (list Path) :=
  let* _ := mkdir output_dir in
  if dry_run then
    io_mapM (λ report, io_of_option UnicodeEncodeError
                         (target_path report output_dir)) reports
  else if max_workers <=? 0 then io_raise ValueError
  else
    λ w,
      let '(futures, w') :=
        run_all (λ report, _download_single report output_dir overwrite timeout)
                reports w in
      (collect_results futures, w').
End download.

(* ===================================================================== *)
(** ** Concrete stand-ins and sample data                                 *)
(* ===================================================================== *)

(** Stand-ins for the abstract library functions, exact on ASCII input, to
    run the functions on examples. *)
Definition ascii_lower (c : Z) : Z :=
  if in_range (chr "A") (chr "Z") c then c + 32 else c.

Fixpoint digits_value (acc : Z) (s : str) : option Z :=
  match s with
  | [] => Some acc
  | c :: t =>
      if in_range (chr "0") (chr "9") c
      then digits_value (10 * acc + (c - chr "0")) t
      else None
  end.

Definition int_ascii (s : str) : option Z :=
  match strip_ws s with
  | [] => None
  | c :: t =>
      if c =? ch_minus then
        if truthy t then Z.opp <$> digits_value 0 t else None
      else digits_value 0 (c :: t)
  end.

Definition ascii_externals (doc : list node) : Externals :=
  {| str_lower := map ascii_lower;
     str_lower_nil := eq_refl;
     py_int := int_ascii;
     html_parser := λ _, doc;
     urljoin := λ base url, base ++ url |}.

Definition td (s : string) : node := Elem (py "td") ∅ [Text (py s)].

Definition link_cell (links : list node) : node := Elem (py "td") ∅ links.

Definition anchor (href : option string) : node :=
  Elem (py "a")
       (match href with
        | Some h => {[ py "href" := py h ]}
        | None => ∅
        end)
       [Text (py "Download")].

Definition option_elem (value : option string) (label : string) : node :=
  Elem (py "option")
       (match value with
        | Some v => {[ py "value" := py v ]}
        | None => ∅
        end)
       [Text (py label)].

(** The listing of tests/test_parser.py. *)
Definition sample_doc : list node :=
  [ Text (py " ");
    Elem (py "select") {[ py "id" := py "year" ]}
      [ option_elem (Some "") " Select Year";
        option_elem (Some "y1") "2009 downwards";
        option_elem (Some "y2") "2010-2011" ];
    Elem (py "table") {[ py "id" := py "myTable" ]}
      [ Elem (py "tbody") ∅
          [ Elem (py "tr") ∅
              [ td "1";
                Elem (py "td") ∅
                  [ Text (py "First "); Elem (py "strong") ∅ [Text (py "Report")];
                    Text (py " Title") ];
                td "January 01, 2020";
                link_cell [anchor (Some "/SiteImage/Policy/report-1.pdf")];
                td "y2"; td "ar1"; td "7"; td "True" ];
            Elem (py "tr") ∅
              [ td "2"; td "Second Report"; td "February 02, 2019";
                link_cell [anchor (Some "/SiteImage/Policy/report-2.pdf")];
                td "y1"; td "ar2"; td "6"; td "False" ] ] ] ].

(** A row whose link cell holds an anchor without [href] before one with. *)
Definition two_anchor_row : node :=
  Elem (py "tr") ∅
    [ td "7"; td "Annual Report"; td "May 05, 2022";
      link_cell [anchor None; anchor (Some "/files/annual.pdf")] ].

Definition empty_world : World :=
  {| fs_files := ∅; fs_dirs := ∅; requests_log := [];
     remote := λ _, Some {| status_code := 200;
                            iter_content := [[1; 2]; []; [3]];
                            stream_breaks := false |} |}.

(** The first element, if any, fails [p]. *)
Definition head_not {A} (p : A → bool) (l : list A) : Prop :=
  match l with
  | [] => True
  | x :: _ => p x = false
  end.

Definition head_is (b : Z) (s : str) : bool :=
  match s with
  | y :: _ => y =? b
  | [] => false
  end.

(** [a] immediately followed by [b] somewhere in [s]. *)
Fixpoint has_pair (a b : Z) (s : str) : bool :=
  match s with
  | [] => false
  | x :: t => ((x =? a) && head_is b t) || has_pair a b t
  end.

(** What the first five statements of [sanitize_filename] leave of a name:
    only characters of the class, no run of underscores, no underscore
    before a dot, and neither end in ["._ "]. *)
Record clean (s : str) : Prop := {
  clean_nonempty : s ≠ [];
  clean_allowed : Forall (λ c, allowed c = true) s;
  clean_no_run : has_pair ch_underscore ch_underscore s = false;
  clean_no_underscore_dot : has_pair ch_underscore ch_dot s = false;
  clean_head : head_not (in_chars strip_chars) s;
  clean_last : head_not (in_chars strip_chars) (reverse s)
}.

Definition is_ascii (c : Z) : Prop := 0 ≤ c < 128.

Definition head_notb {A} (p : A → bool) (l : list A) : bool :=
  match l with
  | [] => true
  | x :: _ => negb (p x)
  end.

(** [clean], decided. *)
Definition cleanb (s : str) : bool :=
  truthy s && forallb allowed s
  && negb (has_pair ch_underscore ch_underscore s)
  && negb (has_pair ch_underscore ch_dot s)
  && head_notb (in_chars strip_chars) s
  && head_notb (in_chars strip_chars) (reverse s).

(** The extension the truncation branch keeps, and the bytes it leaves for
    the stem. *)
Definition kept_ext (sanitized : str) : str :=
  let ext := (splitext sanitized).2 in
  if truthy ext then ext else py ".pdf".

Definition available_for (ext : str) : Z :=
  Z.max 1 (MAX_FILENAME_BYTES - Z.of_nat (length ext)).

(** The properties of a sanitized name, in elementary terms. *)
Definition safe_chars (y : str) : Prop := ∀ c, c ∈ y → allowed c = true.

Definition no_underscore_run (y : str) : Prop :=
  ∀ i, y !! i = Some ch_underscore → y !! S i ≠ Some ch_underscore.

Definition ends_unstripped (y : str) : Prop :=
  ∀ c, head y = Some c ∨ last y = Some c →
       c ≠ ch_dot ∧ c ≠ ch_underscore ∧ c ≠ ch_space.

(** A name whose extension alone is longer than the limit. *)
Definition long_extension_name : str := py "a." ++ replicate 300 (chr "b").

(** A path component that cannot leave its directory. *)
Definition safe_component (c : str) : Prop :=
  c ≠ [] ∧ (ch_slash ∉ c) ∧ (ch_backslash ∉ c) ∧ c ≠ py "." ∧ c ≠ py "..".

(** The file name [target_path] asks [sanitize_filename] for. *)
Definition raw_filename (r : Report) : str :=
  format_04d (serial r) ++ py "_" ++ title r ++ py ".pdf".

(** The target path with a subdirectory for every label that is present,
    the empty one included. *)
Definition target_path_every_label (r : Report) (base_dir : Path)
  : option Path :=
  let directory :=
    match year_label r with
    | Some label => path_div base_dir (sanitize_directory_name label)
    | None => base_dir
    end in
  filename ← sanitize_filename (raw_filename r);
  Some (path_div directory filename).

(** A report whose year label is the empty string. *)
Definition empty_label_report : Report :=
  {| serial := 3; title := py "Budget"; date_text := []; download_url := [];
     year_code := None; year_label := Some [];
     report_code := None; type_code := None; is_active := None |}.

(** The year mapping as the specification words it: options with an empty
    value or empty visible text are left out, and a code maps to the label
    of its first remaining occurrence. *)
Definition option_kept (o : node) : bool :=
  opt_truthy (get o (py "value")) && truthy (strip_ws (text o)).

Definition option_code (o : node) : str :=
  strip_ws (default [] (get o (py "value"))).

Definition option_label (o : node) : str := strip_ws (text o).

Definition first_label (code : str) (options : list node) : option str :=
  option_label
    <$> head (List.filter (λ o, str_eqb (option_code o) code)
                (List.filter option_kept options)).

(** The cells of a row. *)
Definition row_cells (tr : node) : list node := find_all (py "td") tr.

(** All nodes of a document, in document order. *)
Definition document_order (soup : list node) : list node :=
  flat_map (λ n, n :: descendants n) soup.

(** Two readings of "the link cell has an anchor with a non-empty href":
    the first anchor of the cell has one, or some anchor of the cell has. *)
Definition first_anchor_href (cell : node) : bool :=
  match find (py "a") cell with
  | Some a => opt_truthy (get a (py "href"))
  | None => false
  end.

Definition some_anchor_href (cell : node) : bool :=
  existsb (λ a, opt_truthy (get a (py "href"))) (find_all (py "a") cell).

Section row_validity.
Context `{Externals}.

(** A row has fewer than 4 cells, or the text of its first cell is not
    an integer, or its fourth cell fails [link_ok]. *)
Definition row_dropped (link_ok : node → bool) (tr : node) : bool :=
  let cells := row_cells tr in
  (length cells <? 4)%nat
  || match cells !! 0%nat with
     | Some c0 =>
         match py_int (get_text [] true c0) with
         | Some _ => false
         | None => true
         end
     | None => true
     end
  || match cells !! 3%nat with
     | Some c3 => negb (link_ok c3)
     | None => true
     end.
End row_validity.

(** The year filter and the query filter as the specification words them:
    the non-[None] values among [year_code] and [year_label], compared in
    lower case with the requested tokens; the lowered query a substring of
    the lowered title. *)
Definition year_values (r : Report) : list str :=
  omap id [year_code r; year_label r].

Section filter_spec.
Context `{Externals}.

Definition year_sets_intersect (values tokens : list str) : Prop :=
  ∃ v t, v ∈ values ∧ t ∈ tokens ∧ str_lower v = str_lower t.

Definition query_in_title (q : str) (r : Report) : Prop :=
  ∃ before after, str_lower (title r) = before ++ str_lower q ++ after.

(** A filter that is present applies, whatever it holds. *)
Definition passes_as_claimed (years : option (list str))
           (query : option str) (r : Report) : Prop :=
  match years with
  | Some tokens => year_sets_intersect (year_values r) tokens
  | None => True
  end
  ∧ match query with
    | Some q => query_in_title q r
    | None => True
    end.

(** An empty list of years is no filter, and empty values of a report
    are left out of the comparison. *)
Definition passes (years : option (list str)) (query : option str)
           (r : Report) : Prop :=
  match years with
  | Some (y :: ys) =>
      year_sets_intersect (List.filter truthy (year_values r)) (y :: ys)
  | _ => True
  end
  ∧ match query with
    | Some q => query_in_title q r
    | None => True
    end.
End filter_spec.

(** A report whose year code is the empty string. *)
Definition empty_code_report : Report :=
  {| serial := 5; title := py "Audit"; date_text := []; download_url := [];
     year_code := Some []; year_label := None;
     report_code := None; type_code := None; is_active := None |}.

(** What a computation leaves untouched when it writes no file and sends
    no request. *)
Definition same_files_and_requests (w w' : World) : Prop :=
  fs_files w' = fs_files w ∧ requests_log w' = requests_log w
  ∧ remote w' = remote w ∧ fs_dirs w ⊆ fs_dirs w'.

(** A world in which the target of [sample_report] under ["downloads"] is
    already there. *)
Definition sample_target : Path :=
  [py "downloads"; py "2010-2011"; py "0003_Report_with_invalid_chars.pdf"].

Definition existing_world : World :=
  {| fs_files := {[ sample_target := [37; 80; 68; 70] ]};
     fs_dirs := {[ [py "downloads"]; [py "downloads"; py "2010-2011"] ]};
     requests_log := [];
     remote := λ _, None |}.

(** The characters [format_04d] writes, and the digits of a string read
    back as a decimal number. *)
Definition is_serial_char (c : Z) : bool :=
  in_range (chr "0") (chr "9") c || (c =? ch_minus).

Fixpoint digits_uint (s : str) : Decimal.uint :=
  match s with
  | [] => Decimal.Nil
  | c :: t =>
      if c =? chr "0" then Decimal.D0 (digits_uint t)
      else if c =? chr "1" then Decimal.D1 (digits_uint t)
      else if c =? chr "2" then Decimal.D2 (digits_uint t)
      else if c =? chr "3" then Decimal.D3 (digits_uint t)
      else if c =? chr "4" then Decimal.D4 (digits_uint t)
      else if c =? chr "5" then Decimal.D5 (digits_uint t)
      else if c =? chr "6" then Decimal.D6 (digits_uint t)
      else if c =? chr "7" then Decimal.D7 (digits_uint t)
      else if c =? chr "8" then Decimal.D8 (digits_uint t)
      else if c =? chr "9" then Decimal.D9 (digits_uint t)
      else Decimal.Nil
  end.

(** A report with a negative serial and a title that needs truncation. *)
Definition long_title_report : Report :=
  {| serial := -12; title := replicate 300 (chr "x"); date_text := [];
     download_url := py "/x.pdf"; year_code := None; year_label := None;
     report_code := None; type_code := None; is_active := None |}.

(** A string without leading or trailing whitespace. *)
Definition trimmed (s : str) : Prop := strip_ws s = s.

(** A row with exactly four cells. *)
Definition four_cell_row : node :=
  Elem (py "tr") ∅
    [ td " 12 "; td "  Special   Audit "; td "June 06, 2023";
      link_cell [anchor (Some "/files/special.pdf")] ].

(** The first Report of the sample listing. *)
Definition first_sample_report : Report :=
  {| serial := 1; title := py "First Report Title";
     date_text := py "January 01, 2020";
     download_url := py "/SiteImage/Policy/report-1.pdf";
     year_code := Some (py "y2"); year_label := Some (py "2010-2011");
     report_code := Some (py "ar1"); type_code := Some (py "7");
     is_active := Some true |}.

(** The world with other files. *)
Definition set_files (files : gmap Path bytes) (w : World) : World :=
  {| fs_files := files; fs_dirs := fs_dirs w;
     requests_log := requests_log w; remote := remote w |}.

(** The world after one more request. *)
Definition log_request (url : str) (timeout : Z) (w : World) : World :=
  {| fs_files := fs_files w; fs_dirs := fs_dirs w;
     requests_log := requests_log w ++ [(url, timeout)];
     remote := remote w |}.

(** A world whose remote side answers 404, with the sample target in
    place. *)
Definition failing_world : World :=
  {| fs_files := {[ sample_target := [37; 80; 68; 70] ]};
     fs_dirs := {[ [py "downloads"]; [py "downloads"; py "2010-2011"] ]};
     requests_log := [];
     remote := λ _, Some {| status_code := 404; iter_content := [[1]];
                            stream_breaks := false |} |}.

(** A world in which the output directory ["downloads"] is a regular
    file. *)
Definition blocked_world : World :=
  {| fs_files := {[ [py "downloads"] := [37; 80; 68; 70] ]};
     fs_dirs := ∅; requests_log := [];
     remote := λ _, None |}.

(** Another report than [sample_report], with the same serial: under
    ["out/2010-2011"] it gets the target [sample_report] gets under
    ["out"]. *)
Definition respelled_report : Report :=
  {| serial := 3; title := py "Report_with invalid?chars";
     date_text := py "April 04, 2022"; download_url := py "/other.pdf";
     year_code := None; year_label := None;
     report_code := None; type_code := None; is_active := None |}.

(** A row whose year code is one of the sample listing's. *)
Definition labelled_row : node :=
  Elem (py "tr") ∅
    [ td "9"; td "Performance Audit"; td "July 07, 2021";
      link_cell [anchor (Some "/files/performance.pdf")];
      td " y1 "; td "ar9" ].

(** A world with the sample target in place whose remote side answers 200
    and loses the connection after three bytes of the body. *)
Definition breaking_world : World :=
  {| fs_files := {[ sample_target := [37; 80; 68; 70] ]};
     fs_dirs := {[ [py "downloads"]; [py "downloads"; py "2010-2011"] ]};
     requests_log := [];
     remote := λ _, Some {| status_code := 200;
                            iter_content := [[1; 2]; []; [3]];
                            stream_breaks := true |} |}.

(* ===================================================================== *)
(** * Properties                                                          *)
(* ===================================================================== *)

(** ** Lists and strings *)

Lemma take_drop_while {A} (p : A → bool) (l : list A) :
  take_while p l ++ drop_while p l = l.
Proof.
  induction l as [|x t IH]; simpl; [done|].
  destruct (p x); simpl; [by rewrite IH | done].
Qed.

Lemma take_while_Forall {A} (p : A → bool) (l : list A) :
  Forall (λ x, p x = true) (take_while p l).
Proof.
  induction l as [|x t IH]; simpl; [constructor|].
  destruct (p x) eqn:E; by constructor.
Qed.

Lemma drop_while_drop {A} (p : A → bool) (l : list A) :
  drop_while p l = drop (length (take_while p l)) l.
Proof.
  induction l as [|x t IH]; simpl; [done|].
  destruct (p x); simpl; done.
Qed.

Lemma drop_while_head_not {A} (p : A → bool) (l : list A) :
  head_not p (drop_while p l).
Proof.
  induction l as [|x t IH]; simpl; [done|].
  destruct (p x) eqn:E; simpl; done.
Qed.

Lemma drop_while_id {A} (p : A → bool) (l : list A) :
  head_not p l → drop_while p l = l.
Proof. destruct l as [|x t]; simpl; [done|]. by intros ->. Qed.

Lemma take_while_nil {A} (p : A → bool) (l : list A) :
  head_not p l → take_while p l = [].
Proof. destruct l as [|x t]; simpl; [done|]. by intros ->. Qed.

Lemma head_not_app {A} (p : A → bool) (l k : list A) :
  l ≠ [] → head_not p l → head_not p (l ++ k).
Proof. by destruct l. Qed.

Lemma rstrip_by_split (p : Z → bool) (s : str) :
  ∃ tail, s = rstrip_by p s ++ tail ∧ Forall (λ c, p c = true) tail.
Proof.
  exists (reverse (take_while p (reverse s))). split.
  - unfold rstrip_by. rewrite <- reverse_app, take_drop_while.
    by rewrite reverse_involutive.
  - apply Forall_reverse, take_while_Forall.
Qed.

Lemma rstrip_by_last (p : Z → bool) (s : str) :
  head_not p (reverse (rstrip_by p s)).
Proof.
  unfold rstrip_by. rewrite reverse_involutive. apply drop_while_head_not.
Qed.

Lemma rstrip_by_id (p : Z → bool) (s : str) :
  head_not p (reverse s) → rstrip_by p s = s.
Proof.
  intros Hs. unfold rstrip_by. rewrite drop_while_id by done.
  apply reverse_involutive.
Qed.

Lemma rstrip_by_length (p : Z → bool) (s : str) :
  (length (rstrip_by p s) ≤ length s)%nat.
Proof.
  destruct (rstrip_by_split p s) as (tail & Hs & _).
  rewrite Hs at 2. rewrite length_app. lia.
Qed.

(** Stripping the right end keeps a first character that is not stripped. *)
Lemma rstrip_by_cons (p : Z → bool) (c : Z) (s : str) :
  p c = false → ∃ r, rstrip_by p (c :: s) = c :: r.
Proof.
  intros Hc. destruct (rstrip_by_split p (c :: s)) as (tail & Hs & Htail).
  destruct (rstrip_by p (c :: s)) as [|x r] eqn:E.
  - simpl in Hs. subst tail. inversion Htail; congruence.
  - simpl in Hs. injection Hs as -> _. by exists r.
Qed.

Lemma strip_by_split (p : Z → bool) (s : str) :
  ∃ l r, s = l ++ strip_by p s ++ r.
Proof.
  unfold strip_by, lstrip_by.
  destruct (rstrip_by_split p (drop_while p s)) as (tail & Hs & _).
  exists (take_while p s), tail.
  rewrite <- Hs. by rewrite take_drop_while.
Qed.

Lemma strip_by_head (p : Z → bool) (s : str) : head_not p (strip_by p s).
Proof.
  unfold strip_by, lstrip_by.
  pose proof (drop_while_head_not p s) as Hh.
  destruct (drop_while p s) as [|c t] eqn:E; [done|].
  simpl in Hh. destruct (rstrip_by_cons p c t Hh) as [r ->]. done.
Qed.

Lemma strip_by_last (p : Z → bool) (s : str) :
  head_not p (reverse (strip_by p s)).
Proof. apply rstrip_by_last. Qed.

Lemma strip_by_id (p : Z → bool) (s : str) :
  head_not p s → head_not p (reverse s) → strip_by p s = s.
Proof.
  intros Hh Hl. unfold strip_by, lstrip_by.
  rewrite drop_while_id by done. by apply rstrip_by_id.
Qed.

Lemma has_pair_app_false (a b : Z) (s t : str) :
  has_pair a b (s ++ t) = false →
  has_pair a b s = false ∧ has_pair a b t = false.
Proof.
  induction s as [|x s IH]; simpl; [done|].
  intros [H1 H2]%orb_false_elim. destruct (IH H2) as [Hs Ht].
  split; [|done]. rewrite Hs, orb_false_r.
  destruct s; simpl in *; [by rewrite andb_false_r | done].
Qed.

Lemma has_pair_app_intro (a b : Z) (s t : str) :
  has_pair a b s = false → has_pair a b t = false →
  head_is a (reverse s) && head_is b t = false →
  has_pair a b (s ++ t) = false.
Proof.
  induction s as [|x s IH]; simpl; [done|].
  intros [H1 H2]%orb_false_elim Ht Hj.
  rewrite reverse_cons in Hj.
  apply orb_false_intro.
  - destruct s as [|y s]; simpl in *; [|done].
    destruct t as [|z t]; simpl in *; [by rewrite andb_false_r | done].
  - apply IH; [done | done |].
    destruct s as [|y s]; [by simpl|].
    destruct (reverse (y :: s)) as [|z r] eqn:E; [|done].
    apply (f_equal length) in E. rewrite length_reverse in E. done.
Qed.

(** ** [re.sub] *)

Section re_sub.
Variables (pat : pattern) (repl : str → str).

Lemma re_sub_from_drop (s : str) (k : nat) :
  re_sub_from k pat repl s = re_sub pat repl (drop k s).
Proof.
  revert k. induction s as [|c t IH]; intros k.
  - by destruct k.
  - destruct k as [|k]; [done|]. simpl. apply IH.
Qed.

Lemma re_sub_cons (c : Z) (t : str) :
  re_sub pat repl (c :: t) =
  match pat (c :: t) with
  | Some (S n) => repl (take (S n) (c :: t)) ++ re_sub pat repl (drop n t)
  | _ => c :: re_sub pat repl t
  end.
Proof.
  unfold re_sub at 1. simpl.
  destruct (pat (c :: t)) as [[|n]|]; try done.
  by rewrite re_sub_from_drop.
Qed.

(** Induction along the scan of [re.sub]. *)
Lemma re_sub_ind (P : str → str → Prop) :
  P [] [] →
  (∀ c t, (∀ n, pat (c :: t) ≠ Some (S n)) →
          P t (re_sub pat repl t) → P (c :: t) (c :: re_sub pat repl t)) →
  (∀ c t n, pat (c :: t) = Some (S n) →
            P (drop n t) (re_sub pat repl (drop n t)) →
            P (c :: t)
              (repl (take (S n) (c :: t)) ++ re_sub pat repl (drop n t))) →
  ∀ s, P s (re_sub pat repl s).
Proof.
  intros Hnil Hcopy Hmatch s.
  assert (∀ m s, (length s < m)%nat → P s (re_sub pat repl s)) as Hall;
    [|apply (Hall (S (length s))); lia].
  clear s. induction m as [|m IH]; intros s Hlen; [lia|].
  destruct s as [|c t]; [done|]. simpl in Hlen.
  rewrite re_sub_cons.
  destruct (pat (c :: t)) as [[|n]|] eqn:E.
  - apply Hcopy; [congruence|]. apply IH. lia.
  - apply Hmatch; [done|]. apply IH. rewrite length_drop. lia.
  - apply Hcopy; [congruence|]. apply IH. lia.
Qed.

(** Where the pattern matches nowhere, the string is returned as it is. *)
Lemma re_sub_nomatch (s : str) :
  (∀ t, t `suffix_of` s → pat t = None) → re_sub pat repl s = s.
Proof.
  induction s as [|c t IH]; intros Hno; [done|].
  rewrite re_sub_cons.
  assert (pat (c :: t) = None) as -> by (by apply Hno).
  f_equal. apply IH. intros u Hu. apply Hno. by apply suffix_cons_r.
Qed.

(** A property of characters met by the input and kept by the
    replacement is met by the output. *)
Lemma re_sub_Forall (Q : Z → Prop) (s : str) :
  (∀ m, Forall Q m → Forall Q (repl m)) →
  Forall Q s → Forall Q (re_sub pat repl s).
Proof.
  intros Hrepl. pattern s, (re_sub pat repl s). apply re_sub_ind.
  - done.
  - intros c t _ IH Hs. inversion Hs; subst. constructor; auto.
  - intros c t n _ IH Hs. apply Forall_app. split.
    + apply Hrepl. by apply Forall_take.
    + apply IH. inversion Hs; subst. by apply Forall_drop.
Qed.
End re_sub.

Lemma pat_class_plus_cons (p : Z → bool) (c : Z) (t : str) :
  pat_class_plus p (c :: t) = if p c then Some (S (run_length p t)) else None.
Proof.
  unfold pat_class_plus, run_length. simpl. by destruct (p c).
Qed.

Lemma run_length_head_not (p : Z → bool) (s : str) :
  head_not p s → run_length p s = O.
Proof. intros Hs. unfold run_length. by rewrite take_while_nil. Qed.

Lemma drop_run_length (p : Z → bool) (s : str) :
  drop (run_length p s) s = drop_while p s.
Proof. symmetry. apply drop_while_drop. Qed.

Lemma head_is_false_not (a : Z) (s : str) :
  head_is a s = false ↔ head_not (λ c, c =? a) s.
Proof. by destruct s. Qed.

(** *** Step 1: [[^A-Za-z0-9._-]+] becomes ["_"] *)

Lemma sanitize_translation_allowed (value : str) :
  Forall (λ c, allowed c = true) (_SANITIZE_TRANSLATION value).
Proof.
  unfold _SANITIZE_TRANSLATION.
  pattern value, (re_sub pat_invalid_chars (λ _, py "_") value).
  apply re_sub_ind.
  - constructor.
  - intros c t Hno IH. constructor; [|done].
    unfold pat_invalid_chars in Hno. rewrite pat_class_plus_cons in Hno.
    destruct (allowed c); [done|]. simpl in Hno. by edestruct Hno.
  - intros c t n _ IH. apply Forall_app. split; [|done].
    by repeat constructor.
Qed.

Lemma sanitize_translation_id (value : str) :
  Forall (λ c, allowed c = true) value → _SANITIZE_TRANSLATION value = value.
Proof.
  intros Hv. apply re_sub_nomatch. intros t [k ->].
  apply Forall_app in Hv as [_ Ht].
  destruct t as [|c t]; [done|]. inversion Ht; subst.
  unfold pat_invalid_chars. rewrite pat_class_plus_cons.
  by destruct (allowed c).
Qed.

(** *** Step 2: [_+] becomes ["_"] *)

Lemma collapse_underscores_no_run (s : str) :
  has_pair ch_underscore ch_underscore (collapse_underscores s) = false
  ∧ (head_is ch_underscore s = false →
     head_is ch_underscore (collapse_underscores s) = false).
Proof.
  unfold collapse_underscores.
  pattern s, (re_sub pat_underscores (λ _, py "_") s). apply re_sub_ind.
  - done.
  - intros c t Hno [IH1 IH2].
    unfold pat_underscores in Hno. rewrite pat_class_plus_cons in Hno.
    assert (is_underscore c = false) as Hc.
    { destruct (is_underscore c); [|done]. by edestruct Hno. }
    unfold is_underscore in Hc. simpl. by rewrite Hc, IH1.
  - intros c t n Hm [IH1 IH2].
    unfold pat_underscores in Hm. rewrite pat_class_plus_cons in Hm.
    destruct (is_underscore c) eqn:Hc; [|done]. injection Hm as <-.
    rewrite drop_run_length in *.
    assert (head_is ch_underscore
              (re_sub pat_underscores (λ _, py "_")
                 (drop_while is_underscore t)) = false) as Hh.
    { apply IH2, head_is_false_not, (drop_while_head_not is_underscore). }
    split.
    + change (py "_" ++ ?r) with (ch_underscore :: r).
      simpl. by rewrite Hh, IH1.
    + unfold is_underscore in Hc. simpl. by rewrite Hc.
Qed.

Lemma collapse_underscores_id (s : str) :
  has_pair ch_underscore ch_underscore s = false → collapse_underscores s = s.
Proof.
  unfold collapse_underscores.
  pattern s, (re_sub pat_underscores (λ _, py "_") s). apply re_sub_ind.
  - done.
  - intros c t _ IH [_ Ht]%orb_false_elim. by rewrite IH.
  - intros c t n Hm IH [Hc Ht]%orb_false_elim.
    unfold pat_underscores in Hm. rewrite pat_class_plus_cons in Hm.
    destruct (is_underscore c) eqn:Hu; [|done]. injection Hm as <-.
    unfold is_underscore in Hu. rewrite Hu in Hc. simpl in Hc.
    apply Z.eqb_eq in Hu as ->.
    rewrite run_length_head_not in * by by apply head_is_false_not.
    rewrite drop_0 in *. by rewrite IH.
Qed.

Lemma collapse_underscores_allowed (s : str) :
  Forall (λ c, allowed c = true) s →
  Forall (λ c, allowed c = true) (collapse_underscores s).
Proof. apply re_sub_Forall. intros _ _. by repeat constructor. Qed.

(** *** Step 3: [_+(\.)] becomes the dot *)

Lemma pat_underscores_dot_cons (c : Z) (t : str) :
  pat_underscores_dot (c :: t) =
  if is_underscore c then
    match t !! run_length is_underscore t with
    | Some d => if d =? ch_dot then Some (S (S (run_length is_underscore t)))
                else None
    | None => None
    end
  else None.
Proof.
  unfold pat_underscores_dot, run_length. simpl.
  by destruct (is_underscore c).
Qed.

Lemma drop_underscores_before_dot_head (s : str) :
  head_is ch_underscore s = false →
  head (drop_underscores_before_dot s) = head s.
Proof.
  destruct s as [|c t]; [done|]. simpl. intros Hc.
  unfold drop_underscores_before_dot. rewrite re_sub_cons.
  rewrite pat_underscores_dot_cons. unfold is_underscore. by rewrite Hc.
Qed.

Lemma head_is_head (a : Z) (s t : str) :
  head s = head t → head_is a s = head_is a t.
Proof. destruct s, t; simpl; congruence. Qed.

Lemma drop_underscores_before_dot_pairs (s : str) :
  has_pair ch_underscore ch_underscore s = false →
  has_pair ch_underscore ch_underscore (drop_underscores_before_dot s) = false
  ∧ has_pair ch_underscore ch_dot (drop_underscores_before_dot s) = false.
Proof.
  unfold drop_underscores_before_dot.
  pattern s, (re_sub pat_underscores_dot repl_group1 s). apply re_sub_ind.
  - done.
  - intros c t Hno IH [Hc Ht]%orb_false_elim.
    destruct (IH Ht) as [IH1 IH2]. simpl. rewrite IH1, IH2, !orb_false_r.
    destruct (c =? ch_underscore) eqn:Hu; [|done]. simpl in *.
    pose proof (drop_underscores_before_dot_head t Hc) as Hh.
    unfold drop_underscores_before_dot in Hh.
    rewrite (head_is_head _ _ _ Hh), (head_is_head _ _ _ Hh), Hc.
    split; [done|].
    rewrite pat_underscores_dot_cons in Hno. unfold is_underscore in Hno.
    rewrite Hu in Hno.
    rewrite run_length_head_not in Hno by by apply head_is_false_not.
    destruct t as [|d t]; [done|]. simpl in *.
    destruct (d =? ch_dot); [|done]. by edestruct Hno.
  - intros c t n Hm IH [Hc Ht]%orb_false_elim.
    rewrite pat_underscores_dot_cons in Hm.
    destruct (is_underscore c) eqn:Hu; [|done].
    unfold is_underscore in Hu. rewrite Hu in Hc. simpl in Hc.
    rewrite run_length_head_not in Hm by by apply head_is_false_not.
    destruct t as [|d t]; [done|]. simpl in Hm.
    destruct (d =? ch_dot) eqn:Hd; [|done]. injection Hm as <-.
    apply Z.eqb_eq in Hd as ->. apply Z.eqb_eq in Hu as ->.
    simpl in Ht. try apply orb_false_elim in Ht as [_ Ht].
    change (repl_group1 _) with [ch_dot]. simpl drop in *.
    destruct (IH Ht) as [IH1 IH2]. simpl. by rewrite IH1, IH2.
Qed.

Lemma run_not_before_dot (u : str) :
  has_pair ch_underscore ch_dot u = false →
  head_is ch_underscore u = true →
  u !! run_length is_underscore u ≠ Some ch_dot.
Proof.
  induction u as [|c t IH]; [done|].
  intros Hp Hu. simpl in Hu.
  assert (run_length is_underscore (c :: t)
          = S (run_length is_underscore t)) as ->.
  { unfold run_length, is_underscore. simpl. by rewrite Hu. }
  simpl in Hp. apply orb_false_elim in Hp as [Hc Ht].
  rewrite Hu in Hc. simpl in Hc.
  destruct t as [|d t]; [done|].
  destruct (d =? ch_underscore) eqn:Hd.
  - by apply IH.
  - rewrite run_length_head_not by done.
    simpl in *. intros [= ->]. done.
Qed.

Lemma pat_underscores_dot_None (u : str) :
  has_pair ch_underscore ch_dot u = false → pat_underscores_dot u = None.
Proof.
  intros Hu. destruct u as [|c t]; [done|].
  rewrite pat_underscores_dot_cons.
  destruct (is_underscore c) eqn:Hc; [|done].
  pose proof (run_not_before_dot _ Hu Hc) as Hr.
  unfold run_length in Hr. simpl in Hr. rewrite Hc in Hr. simpl in Hr.
  fold (run_length is_underscore t) in Hr.
  case_match eqn:E; [|done]. case_match eqn:Hd; [|done].
  apply Z.eqb_eq in Hd as ->. exfalso. apply Hr. exact E.
Qed.

Lemma drop_underscores_before_dot_id (s : str) :
  has_pair ch_underscore ch_dot s = false →
  drop_underscores_before_dot s = s.
Proof.
  intros Hs. apply re_sub_nomatch. intros t [k ->].
  apply pat_underscores_dot_None.
  by apply has_pair_app_false in Hs as [_ Ht].
Qed.

Lemma drop_underscores_before_dot_allowed (s : str) :
  Forall (λ c, allowed c = true) s →
  Forall (λ c, allowed c = true) (drop_underscores_before_dot s).
Proof. apply re_sub_Forall. intros m Hm. by apply Forall_drop. Qed.

(** ** The result before the length check *)

Lemma head_notb_true {A} (p : A → bool) (l : list A) :
  head_notb p l = true → head_not p l.
Proof. destruct l as [|x t]; simpl; [done|]. by destruct (p x). Qed.

Lemma cleanb_clean (s : str) : cleanb s = true → clean s.
Proof.
  unfold cleanb. rewrite !andb_true_iff, !negb_true_iff.
  intros [[[[[H1 H2] H3] H4] H5] H6]. split.
  - by destruct s.
  - apply Forall_forall. intros x Hx%list_elem_of_In.
    by apply (proj1 (forallb_forall _ _) H2).
  - done.
  - done.
  - by apply head_notb_true.
  - by apply head_notb_true.
Qed.

Lemma sanitize_filename_pre_clean (name : str) :
  clean (sanitize_filename_pre name).
Proof.
  unfold sanitize_filename_pre.
  set (s1 := _SANITIZE_TRANSLATION name).
  set (s2 := collapse_underscores s1).
  set (s3 := drop_underscores_before_dot s2).
  assert (Forall (λ c, allowed c = true) s3) as Ha.
  { apply drop_underscores_before_dot_allowed, collapse_underscores_allowed,
      sanitize_translation_allowed. }
  destruct (drop_underscores_before_dot_pairs s2) as [Hr Hd].
  { apply collapse_underscores_no_run. }
  fold s3 in Hr, Hd.
  unfold or_default. destruct (strip strip_chars s3) as [|c t] eqn:E.
  - simpl. by apply cleanb_clean.
  - simpl. rewrite <- E. unfold strip in *.
    destruct (strip_by_split (in_chars strip_chars) s3) as (l & r & Hs).
    rewrite Hs in Ha, Hr, Hd.
    apply Forall_app in Ha as [_ [Ha _]%Forall_app].
    apply has_pair_app_false in Hr as [_ [Hr _]%has_pair_app_false].
    apply has_pair_app_false in Hd as [_ [Hd _]%has_pair_app_false].
    split; try done.
    + by rewrite E.
    + apply strip_by_head.
    + apply strip_by_last.
Qed.

Lemma sanitize_filename_pre_id (s : str) :
  clean s → sanitize_filename_pre s = s.
Proof.
  intros [Hne Ha Hr Hd Hh Hl]. unfold sanitize_filename_pre.
  rewrite sanitize_translation_id by done.
  rewrite collapse_underscores_id by done.
  rewrite drop_underscores_before_dot_id by done.
  unfold strip. rewrite strip_by_id by done.
  by destruct s.
Qed.

(** ** The codec on ASCII text *)

Lemma allowed_is_ascii (c : Z) : allowed c = true → is_ascii c.
Proof.
  unfold allowed, in_range, is_ascii.
  change (chr "A") with 65. change (chr "Z") with 90.
  change (chr "a") with 97. change (chr "z") with 122.
  change (chr "0") with 48. change (chr "9") with 57.
  unfold ch_dot, ch_underscore, ch_minus.
  rewrite !orb_true_iff, !andb_true_iff, !Z.leb_le, !Z.eqb_eq. lia.
Qed.

Lemma encode_char_ascii (c : Z) : is_ascii c → encode_char c = Some [c].
Proof.
  intros [H0 H1]. unfold encode_char.
  destruct (Z.ltb_spec c 0); [lia|].
  destruct (Z.ltb_spec c 128); [done | lia].
Qed.

Lemma str_encode_ascii (s : str) : Forall is_ascii s → str_encode s = Some s.
Proof.
  induction 1 as [|c t Hc _ IH]; [done|].
  simpl. by rewrite encode_char_ascii, IH.
Qed.

Lemma bytes_decode_ignore_ascii (b : bytes) :
  Forall is_ascii b → bytes_decode_ignore b = b.
Proof.
  induction 1 as [|c t [H0 H1] _ IH]; [done|].
  simpl. unfold in_range.
  destruct (Z.leb_spec 0 c); [|lia].
  destruct (Z.leb_spec c 127); [|lia].
  simpl. by rewrite IH.
Qed.

Lemma clean_ascii (s : str) : clean s → Forall is_ascii s.
Proof.
  intros [_ Ha _ _ _ _]. eapply Forall_impl; [done|].
  apply allowed_is_ascii.
Qed.

(** ** [os.path.splitext] *)

Lemma rfind_nat_None (c : Z) (s : str) : c ∉ s → rfind_nat c s = None.
Proof.
  induction s as [|x t IH]; [done|].
  intros Hc. apply not_elem_of_cons in Hc as [Hx Ht].
  simpl. rewrite IH by done.
  destruct (Z.eqb_spec x c); congruence.
Qed.

Lemma rfind_nat_None_inv (c : Z) (s : str) : rfind_nat c s = None → c ∉ s.
Proof.
  induction s as [|x t IH]; simpl; [intros _; apply not_elem_of_nil|].
  destruct (rfind_nat c t); [done|].
  destruct (Z.eqb_spec x c); [done|]. intros _.
  apply not_elem_of_cons. split; [congruence | by apply IH].
Qed.

Lemma rfind_nat_app (c : Z) (s e : str) :
  c ∉ e → rfind_nat c (s ++ c :: e) = Some (length s).
Proof.
  intros He. induction s as [|x t IH]; simpl.
  - rewrite rfind_nat_None by done. by rewrite Z.eqb_refl.
  - by rewrite IH.
Qed.

Lemma rfind_nat_Some (c : Z) (s : str) (i : nat) :
  rfind_nat c s = Some i →
  ∃ stem e, s = stem ++ c :: e ∧ (c ∉ e) ∧ length stem = i.
Proof.
  revert i. induction s as [|x t IH]; intros i; simpl; [done|].
  destruct (rfind_nat c t) as [j|] eqn:E.
  - intros [= <-]. destruct (IH j eq_refl) as (stem & e & -> & He & <-).
    by exists (x :: stem), e.
  - destruct (Z.eqb_spec x c) as [->|]; [|done]. intros [= <-].
    exists [], t. split_and!; [done| |done]. by apply rfind_nat_None_inv.
Qed.

Lemma splitext_no_dot (s : str) :
  ch_slash ∉ s → ch_dot ∉ s → splitext s = (s, []).
Proof.
  intros Hs Hd. unfold splitext, rfind.
  by rewrite !rfind_nat_None by done.
Qed.

Lemma splitext_dot (c : Z) (r e : str) :
  ch_slash ∉ (c :: r) ++ ch_dot :: e → ch_dot ∉ e → c ≠ ch_dot →
  splitext ((c :: r) ++ ch_dot :: e) = (c :: r, ch_dot :: e).
Proof.
  intros Hs He Hc. unfold splitext, rfind.
  rewrite (rfind_nat_None ch_slash) by done.
  rewrite rfind_nat_app by done.
  destruct (Z.ltb_spec (-1) (Z.of_nat (length (c :: r)))); [|lia].
  replace (Z.to_nat (Z.of_nat (length (c :: r)) - (-1 + 1)))
    with (length (c :: r)) by lia.
  rewrite Nat2Z.id. change (Z.to_nat (-1 + 1)) with O. rewrite drop_0.
  rewrite take_app_length, drop_app_length.
  simpl. destruct (Z.eqb_spec c ch_dot); [done|]. done.
Qed.

Lemma clean_no_slash (s : str) : clean s → ch_slash ∉ s.
Proof.
  intros [_ Ha _ _ _ _] Hin.
  by apply (proj1 (Forall_forall _ _) Ha) in Hin.
Qed.

(** On a clean name the extension starts at the last dot, if there is one. *)
Lemma splitext_clean (s : str) :
  clean s →
  ((ch_dot ∉ s) ∧ splitext s = (s, []))
  ∨ ∃ c r e, s = (c :: r) ++ ch_dot :: e ∧ (ch_dot ∉ e)
             ∧ in_chars strip_chars c = false
             ∧ splitext s = (c :: r, ch_dot :: e).
Proof.
  intros Hs. pose proof (clean_no_slash s Hs) as Hsl.
  destruct (rfind_nat ch_dot s) as [i|] eqn:E.
  - right. apply rfind_nat_Some in E as (stem & e & -> & He & _).
    destruct Hs as [_ _ _ _ Hh _].
    destruct stem as [|c r]; [done|]. simpl in Hh.
    exists c, r, e. split_and!; try done.
    apply splitext_dot; try done. by intros ->.
  - left. apply rfind_nat_None_inv in E. split; [done|].
    by apply splitext_no_dot.
Qed.

(** ** The truncation branch *)

Lemma not_stripped_not_underscore (l : str) :
  head_not (in_chars strip_chars) l → head_is ch_underscore l = false.
Proof.
  destruct l as [|x t]; [done|]. simpl. intros Hx.
  destruct (Z.eqb_spec x ch_underscore) as [->|]; done.
Qed.

Lemma head_not_app_swap {A} (p : A → bool) (l x y : list A) :
  l ≠ [] → head_not p (l ++ x) → head_not p (l ++ y).
Proof. by destruct l. Qed.

Lemma truncate_stem_clean (c : Z) (r0 ext : str) (n : nat) :
  (1 ≤ n)%nat →
  in_chars strip_chars c = false →
  Forall (λ c, allowed c = true) (c :: r0) →
  Forall (λ c, allowed c = true) ext →
  has_pair ch_underscore ch_underscore (c :: r0) = false →
  has_pair ch_underscore ch_dot (c :: r0) = false →
  has_pair ch_underscore ch_underscore ext = false →
  has_pair ch_underscore ch_dot ext = false →
  ext ≠ [] → head_not (in_chars strip_chars) (reverse ext) →
  ∃ r, rstrip strip_chars (take n (c :: r0)) = c :: r
       ∧ (length (c :: r) ≤ n)%nat
       ∧ (c :: r) `prefix_of` (c :: r0)
       ∧ clean ((c :: r) ++ ext).
Proof.
  intros Hn Hc Ha Hae Hr Hd Hre Hde Hne Hl.
  destruct n as [|n]; [lia|]. simpl take.
  destruct (rstrip_by_cons (in_chars strip_chars) c (take n r0) Hc) as [r Er].
  pose proof (rstrip_by_split (in_chars strip_chars) (c :: take n r0))
    as (tail & Hsplit & _).
  pose proof (rstrip_by_last (in_chars strip_chars) (c :: take n r0)) as Hlast.
  pose proof (rstrip_by_length (in_chars strip_chars) (c :: take n r0)) as Hlen.
  unfold rstrip. rewrite Er in *.
  assert (c :: r0 = (c :: r) ++ (tail ++ drop n r0)) as Hstem.
  { rewrite app_assoc, <- Hsplit. simpl. by rewrite take_drop. }
  exists r. split; [done|]. split.
  { simpl in Hlen. rewrite length_take in Hlen. simpl. lia. }
  split; [by eexists|].
  rewrite Hstem in Ha, Hr, Hd.
  apply Forall_app in Ha as [Ha _].
  apply has_pair_app_false in Hr as [Hr _].
  apply has_pair_app_false in Hd as [Hd _].
  pose proof (not_stripped_not_underscore _ Hlast) as Hu.
  split.
  - done.
  - by apply Forall_app.
  - apply has_pair_app_intro; [done | done |]. by rewrite Hu.
  - apply has_pair_app_intro; [done | done |]. by rewrite Hu.
  - done.
  - rewrite reverse_app. apply (head_not_app_swap _ _ []); [|by rewrite app_nil_r].
    intros Hrev. apply (f_equal length) in Hrev.
    rewrite length_reverse in Hrev. by destruct ext.
Qed.

Lemma sanitize_filename_truncate_ascii (s stem ext0 : str) :
  splitext s = (stem, ext0) →
  Forall is_ascii stem → Forall is_ascii (kept_ext s) →
  sanitize_filename_truncate s =
  Some (or_default
          (rstrip strip_chars
             (take (Z.to_nat (available_for (kept_ext s))) stem))
          (py "report")
        ++ kept_ext s).
Proof.
  intros Hsp Hstem Hext. unfold sanitize_filename_truncate, kept_ext in *.
  rewrite Hsp in *. simpl snd in *.
  rewrite (str_encode_ascii _ Hext). simpl.
  rewrite (str_encode_ascii _ Hstem). simpl.
  rewrite bytes_decode_ignore_ascii by by apply Forall_take.
  done.
Qed.

(** What the truncation branch returns on a clean name: the first
    character survives, the result is clean again, and the extension is a
    dot followed by dot-free text. *)
Lemma sanitize_filename_truncate_spec (s : str) :
  clean s →
  ∃ c r e,
    sanitize_filename_truncate s = Some ((c :: r) ++ ch_dot :: e)
    ∧ kept_ext s = ch_dot :: e
    ∧ (ch_dot ∉ e)
    ∧ in_chars strip_chars c = false
    ∧ (length (c :: r) ≤ Z.to_nat (available_for (ch_dot :: e)))%nat
    ∧ (c :: r) `prefix_of` (splitext s).1
    ∧ clean ((c :: r) ++ ch_dot :: e).
Proof.
  intros Hs. pose proof (clean_ascii s Hs) as Hascii.
  assert (1 ≤ Z.to_nat (available_for (kept_ext s)))%nat as Hav.
  { unfold available_for. lia. }
  destruct (splitext_clean s Hs)
    as [[Hnd Hsp] | (c & r0 & e & Heq & He & Hc & Hsp)].
  - assert (kept_ext s = py ".pdf") as Hk.
    { unfold kept_ext. by rewrite Hsp. }
    destruct Hs as [Hne Ha Hr Hd Hh Hl].
    destruct s as [|c r0]; [done|].
    assert (in_chars strip_chars c = false) as Hc by exact Hh.
    destruct (truncate_stem_clean c r0 (py ".pdf")
                (Z.to_nat (available_for (kept_ext (c :: r0)))))
      as (r & Er & Hlen & Hpre & Hclean); try done.
    { by repeat constructor. }
    exists c, r, (py "pdf").
    rewrite (sanitize_filename_truncate_ascii _ _ _ Hsp);
      [|done|rewrite Hk; apply (Forall_impl (λ c, allowed c = true));
             [by repeat constructor | apply allowed_is_ascii]].
    rewrite Er, Hk, Hsp in *. split_and!; try done.
    apply not_elem_of_cons. split; [done|].
    apply not_elem_of_cons. split; [done|].
    apply not_elem_of_cons. split; [done|]. apply not_elem_of_nil.
  - assert (kept_ext s = ch_dot :: e) as Hk.
    { unfold kept_ext. by rewrite Hsp. }
    destruct Hs as [Hne Ha Hr Hd Hh Hl]. subst s.
    apply Forall_app in Ha as [Ha Hae].
    apply has_pair_app_false in Hr as [Hr Hre].
    apply has_pair_app_false in Hd as [Hd Hde].
    apply Forall_app in Hascii as [Has Hase].
    rewrite reverse_app in Hl.
    destruct (truncate_stem_clean c r0 (ch_dot :: e)
                (Z.to_nat (available_for (ch_dot :: e))))
      as (r & Er & Hlen & Hpre & Hclean); try done.
    { by rewrite <- Hk. }
    { rewrite <- (app_nil_r (reverse (ch_dot :: e))).
      apply (head_not_app_swap _ _ (reverse (c :: r0))); [|done].
      rewrite reverse_cons. by destruct (reverse e). }
    exists c, r, e.
    rewrite (sanitize_filename_truncate_ascii _ _ _ Hsp) by (by rewrite ?Hk).
    rewrite Hk, Er, Hsp. done.
Qed.

(** ** [sanitize_filename] and [sanitize_directory_name] *)

Lemma has_pair_false_lookup (a b : Z) (s : str) (i : nat) :
  has_pair a b s = false → s !! i = Some a → s !! S i ≠ Some b.
Proof.
  revert i. induction s as [|x t IH]; intros i; [done|].
  intros [Hx Ht]%orb_false_elim. destruct i as [|i].
  - simpl. intros [= ->]. rewrite Z.eqb_refl in Hx. simpl in Hx.
    destruct t as [|y t]; [done|]. simpl in *. intros [= ->].
    by rewrite Z.eqb_refl in Hx.
  - simpl. by apply IH.
Qed.

Lemma in_chars_strip_false (c : Z) :
  in_chars strip_chars c = false →
  c ≠ ch_dot ∧ c ≠ ch_underscore ∧ c ≠ ch_space.
Proof.
  intros Hc. split_and!; intros ->; done.
Qed.

Lemma head_not_ends (y : str) :
  head_not (in_chars strip_chars) y →
  head_not (in_chars strip_chars) (reverse y) →
  ends_unstripped y.
Proof.
  intros Hh Hl c [Hc|Hc]; apply in_chars_strip_false.
  - destruct y; simpl in *; congruence.
  - rewrite <- head_reverse in Hc.
    destruct (reverse y); simpl in *; congruence.
Qed.

Lemma clean_elementary (y : str) :
  clean y →
  y ≠ [] ∧ safe_chars y ∧ no_underscore_run y ∧ ends_unstripped y.
Proof.
  intros [Hne Ha Hr _ Hh Hl]. split_and!.
  - done.
  - intros c Hc. by apply (proj1 (Forall_forall _ _) Ha).
  - intros i. by apply has_pair_false_lookup.
  - by apply head_not_ends.
Qed.

(** The two ways out of [sanitize_filename]. *)
Lemma sanitize_filename_cases (x : str) :
  let s := sanitize_filename_pre x in
  (Z.of_nat (length s) ≤ MAX_FILENAME_BYTES ∧ sanitize_filename x = Some s)
  ∨ (MAX_FILENAME_BYTES < Z.of_nat (length s)
     ∧ sanitize_filename x = sanitize_filename_truncate s).
Proof.
  intros s. pose proof (sanitize_filename_pre_clean x) as Hs. fold s in Hs.
  unfold sanitize_filename. fold s.
  rewrite (str_encode_ascii s (clean_ascii s Hs)). simpl.
  destruct (Z.leb_spec (Z.of_nat (length s)) MAX_FILENAME_BYTES);
    [by left | by right].
Qed.

Lemma sanitize_filename_clean (x : str) :
  ∃ y, sanitize_filename x = Some y ∧ clean y.
Proof.
  pose proof (sanitize_filename_pre_clean x) as Hs.
  destruct (sanitize_filename_cases x) as [[_ ->] | [_ ->]].
  - eauto.
  - destruct (sanitize_filename_truncate_spec _ Hs)
      as (c & r & e & -> & _ & _ & _ & _ & _ & Hc). eauto.
Qed.

Lemma sanitize_directory_name_props (x : str) :
  let d := sanitize_directory_name x in
  d ≠ [] ∧ Forall (λ c, allowed c = true) d
  ∧ head_not (in_chars strip_chars) d
  ∧ head_not (in_chars strip_chars) (reverse d).
Proof.
  unfold sanitize_directory_name, or_default. cbv zeta.
  pose proof (sanitize_translation_allowed x) as Ha.
  destruct (strip_by_split (in_chars strip_chars) (_SANITIZE_TRANSLATION x))
    as (l & r & Hs).
  rewrite Hs in Ha. apply Forall_app in Ha as [_ [Ha _]%Forall_app].
  pose proof (strip_by_head (in_chars strip_chars) (_SANITIZE_TRANSLATION x))
    as Hh.
  pose proof (strip_by_last (in_chars strip_chars) (_SANITIZE_TRANSLATION x))
    as Hl.
  clear Hs. unfold strip.
  destruct (strip_by (in_chars strip_chars) (_SANITIZE_TRANSLATION x))
    as [|c t].
  - cbn [truthy]. split_and!; try done. by repeat constructor.
  - cbn [truthy]. done.
Qed.

(** C2. For every input string, [sanitize_filename] and
    [sanitize_directory_name] return a non-empty string whose characters all
    belong to [[A-Za-z0-9._-]] and that neither starts nor ends with ['.'],
    ['_'] or a space; the result of [sanitize_filename] has no two
    underscores in a row. *)
Theorem sanitize_names_safe (x : str) :
  (∃ y, sanitize_filename x = Some y
        ∧ y ≠ [] ∧ safe_chars y ∧ no_underscore_run y ∧ ends_unstripped y)
  ∧ (sanitize_directory_name x ≠ []
     ∧ safe_chars (sanitize_directory_name x)
     ∧ ends_unstripped (sanitize_directory_name x)).
Proof.
  split.
  - destruct (sanitize_filename_clean x) as (y & Hy & Hc).
    exists y. split; [done|]. by apply clean_elementary.
  - destruct (sanitize_directory_name_props x) as (Hne & Ha & Hh & Hl).
    split_and!.
    + done.
    + intros c Hc. by apply (proj1 (Forall_forall _ _) Ha).
    + by apply head_not_ends.
Qed.

Lemma sanitize_filename_fits_id (y : str) :
  clean y → Z.of_nat (length y) ≤ MAX_FILENAME_BYTES →
  sanitize_filename y = Some y.
Proof.
  intros Hy Hlen. destruct (sanitize_filename_cases y) as [[_ E] | [Hgt _]].
  - by rewrite E, sanitize_filename_pre_id.
  - rewrite sanitize_filename_pre_id in Hgt by done. lia.
Qed.

(** C3. [sanitize_filename] is idempotent: it returns on every input, and
    what it returns is a fixed point. *)
Theorem sanitize_filename_idempotent (x : str) :
  ∃ y, sanitize_filename x = Some y ∧ sanitize_filename y = Some y.
Proof.
  pose proof (sanitize_filename_pre_clean x) as Hs.
  destruct (sanitize_filename_cases x) as [[Hle E] | [Hgt E]].
  - eexists. split; [done|]. by apply sanitize_filename_fits_id.
  - destruct (sanitize_filename_truncate_spec _ Hs)
      as (c & r & e & Et & Hk & He & Hc & Hlen & _ & Hclean).
    exists ((c :: r) ++ ch_dot :: e). split; [by rewrite E|].
    destruct (Z.le_gt_cases
                (Z.of_nat (length ((c :: r) ++ ch_dot :: e)))
                MAX_FILENAME_BYTES) as [Hfit | Hlong].
    { by apply sanitize_filename_fits_id. }
    (* the extension alone fills the limit: the stem is one character *)
    assert (r = []) as ->.
    { rewrite length_app in Hlong. unfold available_for in Hlen.
      unfold MAX_FILENAME_BYTES in *. destruct r; [done|]. simpl in *. lia. }
    destruct (sanitize_filename_cases ([c] ++ ch_dot :: e))
      as [[Hle' _] | [_ E']];
      rewrite sanitize_filename_pre_id in * by done; [lia|].
    rewrite E'.
    assert (splitext ([c] ++ ch_dot :: e) = ([c], ch_dot :: e)) as Hsp.
    { apply splitext_dot; [by apply clean_no_slash | done |].
      by apply in_chars_strip_false in Hc as [? _]. }
    pose proof (clean_ascii _ Hclean) as [Hca Hea]%Forall_app.
    assert (kept_ext ([c] ++ ch_dot :: e) = ch_dot :: e) as Hk'.
    { unfold kept_ext. by rewrite Hsp. }
    rewrite (sanitize_filename_truncate_ascii _ _ _ Hsp) by (by rewrite ?Hk').
    rewrite Hk'.
    assert (1 ≤ Z.to_nat (available_for (ch_dot :: e)))%nat as Hav.
    { unfold available_for. lia. }
    destruct (Z.to_nat (available_for (ch_dot :: e))) as [|n]; [lia|].
    simpl take. rewrite take_nil. unfold rstrip.
    rewrite rstrip_by_id; [done|]. exact Hc.
Qed.

(** C1, as stated, fails: an extension of 200 bytes or more is kept whole
    behind a stem of one byte.  Here the result is 302 bytes long. *)
Lemma sanitize_filename_long_extension :
  sanitize_filename long_extension_name = Some long_extension_name
  ∧ ∃ enc, str_encode long_extension_name = Some enc
           ∧ MAX_FILENAME_BYTES < Z.of_nat (length enc).
Proof.
  split; [by vm_compute|].
  eexists. split; [by vm_compute|]. by vm_compute.
Qed.

(** C1, amended. The UTF-8 encoding of [sanitize_filename x] is at most
    [max(200, 1 + len(ext))] bytes long, [ext] being the extension of the
    result before truncation (from its last dot, [".pdf"] without one): at
    most 200 bytes whenever [ext] is shorter than 200 bytes.  A result that
    fits is returned as it is; otherwise only the stem is cut, to a non-empty
    prefix of at most [max(1, 200 - len(ext))] bytes, and the extension is
    kept whole. *)
Theorem sanitize_filename_length (x : str) :
  let s := sanitize_filename_pre x in
  let ext := kept_ext s in
  ∃ y enc,
    sanitize_filename x = Some y ∧ str_encode y = Some enc
    ∧ Z.of_nat (length enc)
      ≤ Z.max MAX_FILENAME_BYTES (1 + Z.of_nat (length ext))
    ∧ ((Z.of_nat (length s) ≤ MAX_FILENAME_BYTES ∧ y = s)
       ∨ (MAX_FILENAME_BYTES < Z.of_nat (length s)
          ∧ ∃ stem, y = stem ++ ext ∧ stem ≠ []
                    ∧ stem `prefix_of` (splitext s).1
                    ∧ Z.of_nat (length stem) ≤ available_for ext)).
Proof.
  intros s ext. pose proof (sanitize_filename_pre_clean x) as Hs. fold s in Hs.
  destruct (sanitize_filename_cases x) as [[Hle E] | [Hgt E]]; fold s in Hle || fold s in Hgt.
  - exists s, s. rewrite (str_encode_ascii s (clean_ascii s Hs)).
    split_and!; [done | done | lia | by left].
  - destruct (sanitize_filename_truncate_spec _ Hs)
      as (c & r & e & Et & Hk & He & Hc & Hlen & Hpre & Hclean).
    fold s in E, Et. fold ext in Hk. rewrite Hk.
    exists ((c :: r) ++ ch_dot :: e), ((c :: r) ++ ch_dot :: e).
    rewrite (str_encode_ascii _ (clean_ascii _ Hclean)).
    split_and!; [by rewrite E | done | |].
    + rewrite length_app. unfold available_for, MAX_FILENAME_BYTES in *. lia.
    + right. split; [done|]. exists (c :: r).
      split_and!; [done | done | done |].
      unfold available_for in *. lia.
Qed.

(** ** Paths *)

Lemma split_on_no_sep (sep : Z) (s : str) :
  sep ∉ s → split_on sep s = [s].
Proof.
  induction s as [|c t IH]; [done|].
  intros [Hc Ht]%not_elem_of_cons. simpl.
  destruct (Z.eqb_spec c sep); [congruence|]. by rewrite IH.
Qed.

Lemma root_of_no_slash (s : str) : ch_slash ∉ s → root_of s = None.
Proof.
  destruct s as [|c0 s]; [done|].
  intros [Hc _]%not_elem_of_cons.
  assert ((c0 =? ch_slash) = false) as E by by apply Z.eqb_neq.
  destruct s as [|c1 [|c2 s]]; simpl; by rewrite E.
Qed.

(** Joining a name that is one plain component appends it. *)
Lemma path_div_component (p : Path) (name : str) :
  name ≠ [] → ch_slash ∉ name → name ≠ py "." →
  path_div p name = p ++ [name].
Proof.
  intros Hne Hs Hd. unfold path_div, parse_parts.
  rewrite root_of_no_slash, split_on_no_sep by done.
  rewrite filter_cons, decide_True by done. done.
Qed.

Lemma safe_chars_component (name : str) :
  name ≠ [] → Forall (λ c, allowed c = true) name →
  head_not (in_chars strip_chars) name →
  safe_component name.
Proof.
  intros Hne Ha Hh.
  assert (∀ c, allowed c = false → c ∉ name) as Hout.
  { intros c Hc Hin. apply (proj1 (Forall_forall _ _) Ha) in Hin. congruence. }
  split_and!; [done | by apply Hout | by apply Hout | |];
    intros ->; done.
Qed.

Lemma clean_component (name : str) : clean name → safe_component name.
Proof. intros [? ? _ _ ? _]. by apply safe_chars_component. Qed.

Lemma sanitize_directory_name_component (label : str) :
  safe_component (sanitize_directory_name label).
Proof.
  destruct (sanitize_directory_name_props label) as (? & ? & ? & _).
  by apply safe_chars_component.
Qed.

Lemma path_div_safe (p : Path) (name : str) :
  safe_component name → path_div p name = p ++ [name].
Proof. intros (? & ? & _ & ? & _). by apply path_div_component. Qed.

(** The shape of every target path. *)
Lemma target_path_parts (r : Report) (base_dir : Path) :
  ∃ filename,
    sanitize_filename (raw_filename r) = Some filename
    ∧ clean filename
    ∧ target_path r base_dir =
      Some (match year_label r with
            | Some label =>
                if truthy label
                then base_dir ++ [sanitize_directory_name label; filename]
                else base_dir ++ [filename]
            | None => base_dir ++ [filename]
            end).
Proof.
  destruct (sanitize_filename_clean (raw_filename r)) as (filename & E & Hc).
  exists filename. split_and!; [done | done |].
  unfold target_path. fold (raw_filename r). rewrite E. simpl.
  rewrite path_div_safe by by apply clean_component.
  destruct (year_label r) as [label|]; [|done].
  destruct (truthy label); [|done].
  rewrite path_div_safe by apply sanitize_directory_name_component.
  by rewrite <- app_assoc.
Qed.

(** C9, as stated, fails: a year label that is present but empty gets no
    subdirectory, although its sanitized form is ["Unknown-Year"]; and the
    format [04d] counts the minus sign of a negative serial towards the
    width of 4, leaving three digits. *)
Lemma target_path_empty_label :
  target_path empty_label_report [py "out"]
  = Some [py "out"; py "0003_Budget.pdf"]
  ∧ target_path_every_label empty_label_report [py "out"]
    = Some [py "out"; py "Unknown-Year"; py "0003_Budget.pdf"]
  ∧ format_04d (-5) = py "-005".
Proof. split_and!; by vm_compute. Qed.

(** C9, amended. [target_path r base_dir] returns [base_dir] followed by
    the sanitized year label as one more component when the label is present
    and not empty (by nothing when it is [None] or empty), followed by the
    sanitized file name built from the serial formatted with [04d]
    (zero-filled to width 4, a minus sign counting towards the width), an
    underscore, the title and [".pdf"]; it is a function of the report and
    the directory alone. *)
Theorem target_path_spec (r : Report) (base_dir : Path) :
  ∃ filename,
    sanitize_filename
      (format_04d (serial r) ++ py "_" ++ title r ++ py ".pdf")
    = Some filename
    ∧ target_path r base_dir =
      Some (match year_label r with
            | Some (c :: label) =>
                base_dir ++ [sanitize_directory_name (c :: label); filename]
            | _ => base_dir ++ [filename]
            end).
Proof.
  destruct (target_path_parts r base_dir) as (filename & E & _ & Ht).
  exists filename. split; [done|]. rewrite Ht.
  by destruct (year_label r) as [[|c label]|].
Qed.

(** [test_target_path_sanitization]: serial 3, a title with characters
    that are not allowed, the label ["2010-2011"]. *)
Example target_path_sample :
  ∃ target,
    target_path sample_report [py "/"; py "tmp"] = Some target
    ∧ path_name (path_parent target) = py "2010-2011"
    ∧ startswith (py "0003_Report_with_invalid_chars") (path_name target) = true
    ∧ (splitext (path_name target)).2 = py ".pdf".
Proof. eexists. split_and!; by vm_compute. Qed.

(** C10. The target path is the base directory followed by one or two
    components, each of them non-empty, free of path separators and
    different from ["."] and [".."]: whatever the title and the year label,
    the target stays below [base_dir]. *)
Theorem target_path_inside_base (r : Report) (base_dir : Path) :
  ∃ comps,
    target_path r base_dir = Some (base_dir ++ comps)
    ∧ comps ≠ []
    ∧ Forall safe_component comps.
Proof.
  destruct (target_path_parts r base_dir) as (filename & _ & Hc & Ht).
  apply clean_component in Hc.
  destruct (year_label r) as [label|]; [destruct (truthy label)|].
  - exists [sanitize_directory_name label; filename].
    split_and!; [done | done |].
    constructor; [apply sanitize_directory_name_component|].
    by constructor.
  - exists [filename]. split_and!; [done | done | by constructor].
  - exists [filename]. split_and!; [done | done | by constructor].
Qed.

(** ** The year mapping *)

Lemma str_eqb_eq (a b : str) : str_eqb a b = true ↔ a = b.
Proof. unfold str_eqb. by rewrite bool_decide_eq_true. Qed.

Lemma year_mapping_step_skip (m : gmap str str) (o : node) :
  option_kept o = false → year_mapping_step m o = m.
Proof.
  unfold option_kept, year_mapping_step, opt_truthy.
  destruct (get o (py "value")) as [v|]; [|done].
  destruct (truthy v); simpl; [|done]. by intros ->.
Qed.

Lemma year_mapping_step_keep (m : gmap str str) (o : node) :
  option_kept o = true →
  year_mapping_step m o = setdefault (option_code o) (option_label o) m.
Proof.
  unfold option_kept, year_mapping_step, opt_truthy, option_code, option_label.
  destruct (get o (py "value")) as [v|]; [|done].
  destruct (truthy v); simpl; [|done]. by intros ->.
Qed.

Lemma fold_year_mapping (options : list node) (m : gmap str str) (code : str) :
  fold_left year_mapping_step options m !! code =
  match m !! code with
  | Some label => Some label
  | None => first_label code options
  end.
Proof.
  revert m. induction options as [|o rest IH]; intros m; simpl.
  { by destruct (m !! code). }
  rewrite IH. unfold first_label. simpl.
  destruct (option_kept o) eqn:Hk.
  - rewrite year_mapping_step_keep by done. unfold setdefault. simpl.
    destruct (str_eqb (option_code o) code) eqn:Hc.
    + apply str_eqb_eq in Hc as <-.
      destruct (m !! option_code o) eqn:Hm; [by rewrite Hm|].
      by rewrite lookup_insert_eq.
    + assert (option_code o ≠ code) as Hne.
      { intros Heq%str_eqb_eq. congruence. }
      destruct (m !! option_code o); [done|].
      by rewrite lookup_insert_ne.
  - by rewrite year_mapping_step_skip.
Qed.

(** C5. In the mapping built from the document's option elements, every
    option whose value or visible text is empty is skipped, and a code maps
    to the label of its first remaining occurrence, later ones being
    ignored. *)
Theorem extract_year_mapping_first_wins (soup : list node) (code : str) :
  _extract_year_mapping soup !! code =
  first_label code (select year_option_selector soup).
Proof.
  unfold _extract_year_mapping. rewrite fold_year_mapping.
  by rewrite lookup_empty.
Qed.

(** ** Document order *)

Lemma node_ind_nested (P : node → Prop) :
  (∀ s, P (Text s)) → (∀ s, P (Comment s)) →
  (∀ name attrs cs, Forall P cs → P (Elem name attrs cs)) →
  ∀ n, P n.
Proof.
  intros HT HC HE. fix IH 1. intros [s|s|name attrs cs].
  - apply HT.
  - apply HC.
  - apply HE. induction cs as [|c cs IHcs]; constructor; [apply IH | done].
Qed.

Lemma descendants_Elem (name : str) (attrs : gmap str str) (cs : list node) :
  descendants (Elem name attrs cs) = flat_map (λ c, c :: descendants c) cs.
Proof.
  simpl. induction cs as [|c cs IH]; [done|]. simpl. by rewrite IH.
Qed.

Lemma select_in_Elem (sels : list simple_selector) (name : str)
      (attrs : gmap str str) (cs : list node) :
  select_in sels (Elem name attrs cs)
  = select_hit sels (Elem name attrs cs)
    ++ flat_map (select_in (select_below sels (Elem name attrs cs))) cs.
Proof. reflexivity. Qed.

Lemma select_in_sublist (n : node) (sels : list simple_selector) :
  select_in sels n `sublist_of` n :: descendants n.
Proof.
  revert sels. induction n as [s|s|name attrs cs IH] using node_ind_nested;
    intros sels.
  - apply sublist_nil_l.
  - apply sublist_nil_l.
  - rewrite select_in_Elem, descendants_Elem.
    set (n := Elem name attrs cs).
    assert (flat_map (select_in (select_below sels n)) cs
            `sublist_of` flat_map (λ c, c :: descendants c) cs) as Hcs.
    { generalize (select_below sels n). clear n. intros below.
      induction IH as [|c cs Hc _ IHcs]; [done|].
      simpl. by apply (sublist_app _ (c :: descendants c)). }
    assert (select_hit sels n = [] ∨ select_hit sels n = [n]) as [-> | ->].
    { unfold select_hit. destruct sels as [|s [|s' sels]]; [by left | | by left].
      destruct (matches s n); [by right | by left]. }
    + by apply sublist_cons.
    + by apply sublist_skip.
Qed.

(** [select] reports its matches in document order. *)
Lemma select_document_order (sels : list simple_selector) (soup : list node) :
  select sels soup `sublist_of` document_order soup.
Proof.
  unfold select, document_order.
  induction soup as [|n soup IH]; [done|].
  simpl. apply (sublist_app _ (n :: descendants n));
    [apply select_in_sublist | done].
Qed.

(** ** The listing parser *)

Lemma fold_left_append_omap {A B} (f : A → option B) (l : list A)
      (acc : list B) :
  fold_left (λ rows x, match f x with
                       | Some y => rows ++ [y]
                       | None => rows
                       end) l acc
  = acc ++ omap f l.
Proof.
  revert acc. induction l as [|x l IH]; intros acc; simpl.
  - by rewrite app_nil_r.
  - rewrite IH. destruct (f x); [|done]. by rewrite <- app_assoc.
Qed.

(** C4, as stated, fails: the parser looks at the first anchor of the
    link cell only.  This row has four cells, an integer serial and an
    anchor with a non-empty [href] in its fourth cell, and is dropped. *)
Lemma parse_row_two_anchors :
  @_parse_row (ascii_externals []) two_anchor_row ∅ = None
  ∧ @row_dropped (ascii_externals []) some_anchor_href two_anchor_row
    = false.
Proof. split; by vm_compute. Qed.

Section parser_props.
Context `{Externals}.

Lemma parse_reports_omap (html : str) :
  parse_reports html
  = omap (λ tr, _parse_row tr (_extract_year_mapping (html_parser html)))
         (select row_selector (html_parser html)).
Proof. unfold parse_reports. by rewrite fold_left_append_omap. Qed.

Lemma parse_row_None (tr : node) (year_map : gmap str str) :
  _parse_row tr year_map = None ↔ row_dropped first_anchor_href tr = true.
Proof.
  unfold _parse_row, row_dropped, first_anchor_href. fold (row_cells tr).
  destruct (row_cells tr) as [|c0 [|c1 [|c2 [|c3 rest]]]]; try done.
  cbn [length Nat.ltb Nat.leb orb lookup list_lookup].
  destruct (py_int (get_text [] true c0)) as [n|]; [|done].
  destruct (find (py "a") c3) as [a|]; [|done].
  destruct (get a (py "href")) as [href|]; [|done].
  cbn [opt_truthy orb]. by destruct (truthy href).
Qed.

(** C4, amended. A table row yields no Report exactly when it has fewer
    than 4 cells, or the text of its first cell is not parseable as an
    integer, or the first anchor of its fourth cell is missing or has no
    non-empty [href]; every other row yields exactly one Report, and
    [parse_reports] returns the Reports of the surviving rows in document
    order. *)
Theorem parse_reports_rows (html : str) :
  let soup := html_parser html in
  let year_map := _extract_year_mapping soup in
  let rows := select row_selector soup in
  parse_reports html = omap (λ tr, _parse_row tr year_map) rows
  ∧ rows `sublist_of` document_order soup
  ∧ ∀ tr, (_parse_row tr year_map = None
           ↔ row_dropped first_anchor_href tr = true)
          ∧ (is_Some (_parse_row tr year_map)
             ↔ row_dropped first_anchor_href tr = false).
Proof.
  intros soup year_map rows. split_and!.
  - apply parse_reports_omap.
  - apply select_document_order.
  - intros tr. pose proof (parse_row_None tr year_map) as Hn.
    split; [done|].
    destruct Hn as [Hn1 Hn2].
    destruct (_parse_row tr year_map) as [r|],
             (row_dropped first_anchor_href tr).
    + by specialize (Hn2 eq_refl).
    + by split; [|eexists].
    + split; [|done]. by intros [? ?].
    + by specialize (Hn1 eq_refl).
Qed.
End parser_props.

(** ** The filter *)

Lemma startswith_spec (prefix s : str) :
  startswith prefix s = true ↔ ∃ after, s = prefix ++ after.
Proof.
  revert s. induction prefix as [|p ps IH]; intros s; simpl.
  { split; [by exists s | done]. }
  destruct s as [|c cs].
  { split; [done | by intros [? ?]]. }
  rewrite andb_true_iff, Z.eqb_eq, IH. split.
  - intros [-> [after ->]]. by exists after.
  - intros [after [= -> ->]]. split; [done | by exists after].
Qed.

Lemma contains_spec (needle haystack : str) :
  contains needle haystack = true
  ↔ ∃ before after, haystack = before ++ needle ++ after.
Proof.
  induction haystack as [|c cs IH]; simpl;
    rewrite orb_true_iff, startswith_spec.
  - split.
    + intros [[after Ha] | ?]; [|done]. by exists [], after.
    + intros (before & after & Hh). left.
      destruct before; [by exists after | done].
  - rewrite IH. split.
    + intros [[after Ha] | (before & after & ->)].
      * by exists [], after.
      * by exists (c :: before), after.
    + intros (before & after & Hh). destruct before as [|b before].
      * left. by exists after.
      * right. injection Hh as -> ->. by exists before, after.
Qed.

Lemma fold_left_append_filter {A} (skip1 skip2 : A → bool) (l acc : list A) :
  fold_left (λ filtered x,
               if skip1 x then filtered
               else if skip2 x then filtered
               else filtered ++ [x]) l acc
  = acc ++ List.filter (λ x, negb (skip1 x) && negb (skip2 x)) l.
Proof.
  revert acc. induction l as [|x l IH]; intros acc; simpl.
  - by rewrite app_nil_r.
  - rewrite IH. destruct (skip1 x); [done|]. destruct (skip2 x); [done|].
    simpl. by rewrite <- app_assoc.
Qed.

Section filter_props.
Context `{Externals}.

Lemma year_filter_spec (tokens : list str) (r : Report) :
  year_filter (lower_set tokens) r = true
  ↔ year_sets_intersect (List.filter truthy (year_values r)) tokens.
Proof.
  unfold year_filter, filter_None, year_sets_intersect, lower_set.
  fold (year_values r). rewrite bool_decide_eq_true. split.
  - intros (x & Hx)%set_choose_L.
    apply elem_of_intersection in Hx as [Hv Ht].
    apply elem_of_list_to_set, list_elem_of_fmap in Hv as (v & -> & Hv).
    apply elem_of_list_to_set, list_elem_of_fmap in Ht as (t & Heq & Ht).
    by exists v, t.
  - intros (v & t & Hv & Ht & Heq).
    apply (non_empty_inhabited_L (str_lower v)).
    apply elem_of_intersection. split.
    + by apply elem_of_list_to_set, list_elem_of_fmap_2.
    + rewrite Heq. by apply elem_of_list_to_set, list_elem_of_fmap_2.
Qed.

(** C6, amended. [filter_reports] returns the input Reports in their
    original relative order, keeping exactly those that pass both active
    filters.  With a non-empty list of years, a report passes iff one of
    its non-[None], non-empty [year_code] and [year_label] values equals,
    in lower case, one of the requested tokens in lower case; with a
    query, iff the lowered query is a substring of the lowered title; a
    filter that is absent, and a list of years that is empty, pass every
    report. *)
Theorem filter_reports_spec (reports : list Report)
        (years : option (list str)) (query : option str) :
  ∃ keep : Report → bool,
    filter_reports reports years query = List.filter keep reports
    ∧ ∀ r, keep r = true ↔ passes years query r.
Proof.
  unfold filter_reports. eexists. split.
  { apply (fold_left_append_filter _ _ reports []). }
  intros r. unfold passes.
  rewrite andb_true_iff. apply Morphisms_Prop.and_iff_morphism.
  - destruct years as [[|y ys]|]; [done | | done].
    rewrite negb_involutive. apply year_filter_spec.
  - destruct query as [q|]; [|done].
    unfold query_in_title. destruct (truthy q) eqn:Hq.
    + rewrite negb_involutive. apply contains_spec.
    + destruct q; [|done]. split; [|done]. intros _.
      exists [], (str_lower (title r)). by rewrite str_lower_nil.
Qed.
End filter_props.

(** C6, as stated, fails on both sides: an empty list of years keeps every
    report although no token can match, and a report whose only year value
    is the empty string is dropped although that value equals the requested
    token. *)
Lemma filter_reports_empty_values :
  @filter_reports (ascii_externals []) [sample_report] (Some []) None
  = [sample_report]
  ∧ ¬ @passes_as_claimed (ascii_externals []) (Some []) None sample_report
  ∧ @filter_reports (ascii_externals []) [empty_code_report] (Some [[]]) None
    = []
  ∧ @passes_as_claimed (ascii_externals []) (Some [[]]) None empty_code_report.
Proof.
  split_and!.
  - by vm_compute.
  - intros [(v & t & _ & Ht & _) _]. by apply elem_of_nil in Ht.
  - by vm_compute.
  - split; [|done]. exists [], []. split_and!; [|by left|done].
    by left.
Qed.

(** ** The download engine *)

Lemma same_files_and_requests_refl (w : World) : same_files_and_requests w w.
Proof. by split_and!. Qed.

Lemma same_files_and_requests_add_dir (p : Path) (w w' : World) :
  same_files_and_requests w w' → same_files_and_requests w (add_dir p w').
Proof.
  intros (Hf & Hr & Hm & Hd). split_and!; try done.
  simpl. set_solver.
Qed.

Lemma mkdir_parents_same (rp : list str) (w : World) :
  same_files_and_requests w (mkdir_parents rp w).2.
Proof.
  induction rp as [|c rparent IH]; simpl.
  - destruct (is_dir w (reverse [])); [apply same_files_and_requests_refl|].
    destruct (is_file w (reverse [])); apply same_files_and_requests_refl.
  - destruct (is_dir w (reverse (c :: rparent)));
      [apply same_files_and_requests_refl|].
    destruct (is_file w (reverse (c :: rparent)));
      [apply same_files_and_requests_refl|].
    destruct (is_file w (reverse rparent));
      [apply same_files_and_requests_refl|].
    destruct (is_dir w (reverse rparent)).
    { apply same_files_and_requests_add_dir, same_files_and_requests_refl. }
    destruct (mkdir_parents rparent w) as [[[]|e] w']; simpl in *; [|done].
    by apply same_files_and_requests_add_dir.
Qed.

Lemma mkdir_same (p : Path) (w : World) :
  same_files_and_requests w (mkdir p w).2.
Proof. apply mkdir_parents_same. Qed.

Lemma mkdir_parents_existing (rp : list str) (w : World) :
  is_dir w (reverse rp) = true → mkdir_parents rp w = (Returns (), w).
Proof.
  intros Hp. destruct rp as [|c rp]; unfold mkdir_parents;
    fold mkdir_parents; cbv zeta; by rewrite Hp.
Qed.

Lemma mkdir_existing (p : Path) (w : World) :
  is_dir w p = true → mkdir p w = (Returns (), w).
Proof.
  intros Hp. apply mkdir_parents_existing. by rewrite reverse_involutive.
Qed.

Lemma is_file_same (w w' : World) (p : Path) :
  same_files_and_requests w w' → is_file w' p = is_file w p.
Proof. intros (Hf & _). unfold is_file. by rewrite Hf. Qed.

Lemma is_dir_same (w w' : World) (p : Path) :
  same_files_and_requests w w' → is_dir w p = true → is_dir w' p = true.
Proof.
  intros (_ & _ & _ & Hd). unfold is_dir.
  assert (bool_decide (p ∈ fs_dirs w) = true →
          bool_decide (p ∈ fs_dirs w') = true) as Hin.
  { rewrite !bool_decide_eq_true. set_solver. }
  destruct p as [|c [|c' p]]; [done | | done].
  rewrite !orb_true_iff. intros [?|?]; [by left | right; by apply Hin].
Qed.

Section download_props.
Context `{Externals}.

Lemma dry_run_paths (reports : list Report) (output_dir : Path) (w : World) :
  ∃ paths,
    io_mapM (λ report, io_of_option UnicodeEncodeError
                         (target_path report output_dir)) reports w
    = (Returns paths, w)
    ∧ Forall2 (λ report path, target_path report output_dir = Some path)
              reports paths.
Proof.
  induction reports as [|r reports (paths & E & Hall)]; simpl.
  - by exists [].
  - destruct (target_path_parts r output_dir) as (filename & _ & _ & Ht).
    eexists (_ :: paths). split; [|by constructor].
    unfold io_bind. rewrite Ht. simpl. by rewrite E.
Qed.

Lemma download_reports_mkdir_raises (reports : list Report)
      (output_dir : Path) (max_workers : Z) (overwrite dry_run : bool)
      (timeout : Z) (w w1 : World) (e : exn) :
  mkdir output_dir w = (Raises e, w1) →
  download_reports reports output_dir max_workers overwrite dry_run timeout w
  = (Raises e, w1).
Proof. intros E. unfold download_reports, io_bind. by rewrite E. Qed.

(** C7, amended. Where the directory-ensure step returns, a dry run of
    [download_reports] returns one path per report, each the target path of
    the report at the same position; it sends no request and writes no
    file, leaving the world as the directory-ensure step leaves it. *)
Theorem download_reports_dry_run (reports : list Report) (output_dir : Path)
        (max_workers : Z) (overwrite : bool) (timeout : Z) (w w1 : World) :
  mkdir output_dir w = (Returns (), w1) →
  ∃ paths,
    download_reports reports output_dir max_workers overwrite true timeout w
    = (Returns paths, w1)
    ∧ fs_files w1 = fs_files w ∧ requests_log w1 = requests_log w
    ∧ length paths = length reports
    ∧ Forall2 (λ report path, target_path report output_dir = Some path)
              reports paths.
Proof.
  intros E. pose proof (mkdir_same output_dir w) as (Hf & Hr & _).
  rewrite E in Hf, Hr. simpl in Hf, Hr.
  destruct (dry_run_paths reports output_dir w1) as (paths & Ep & Hall).
  exists paths. split_and!; [|done|done| |done].
  - unfold download_reports, io_bind. by rewrite E.
  - symmetry. by eapply Forall2_length.
Qed.

(** C8. With overwrite not requested and the target of a report already
    there, [_download_single] sends no request and writes no file; it
    returns the target path unless making the parent directory raises,
    and where the parent is a directory (as it is for every file of a
    real file system) it returns the target path and leaves the world
    as it was. *)
Theorem download_single_existing (report : Report) (output_dir : Path)
        (timeout : Z) (w : World) (target : Path) :
  target_path report output_dir = Some target →
  is_dir w target || is_file w target = true →
  (∃ made w1,
     mkdir (path_parent target) w = (made, w1)
     ∧ fs_files w1 = fs_files w ∧ requests_log w1 = requests_log w
     ∧ _download_single report output_dir false timeout w
       = (match made with
          | Returns _ => Returns target
          | Raises e => Raises e
          end, w1))
  ∧ (is_dir w (path_parent target) = true →
     _download_single report output_dir false timeout w
     = (Returns target, w)).
Proof.
  intros Ht Hex.
  assert (∀ w1, same_files_and_requests w w1 →
                is_dir w1 target || is_file w1 target = true) as Hstill.
  { intros w1 Hs. apply orb_true_iff in Hex as [Hd|Hf]; apply orb_true_iff.
    - left. by eapply is_dir_same.
    - right. by rewrite (is_file_same w w1). }
  unfold _download_single, io_bind. rewrite Ht. simpl. split.
  - pose proof (mkdir_same (path_parent target) w) as Hs.
    destruct (mkdir (path_parent target) w) as [[[]|e] w1] eqn:E;
      simpl in Hs.
    + exists (Returns ()), w1. destruct Hs as (Hf & Hr & Hm & Hd).
      split_and!; try done.
      unfold path_exists. rewrite Hstill by by split_and!. done.
    + exists (Raises e), w1. by destruct Hs as (Hf & Hr & _).
  - intros Hp. rewrite (mkdir_existing _ _ Hp).
    unfold path_exists. rewrite Hex. done.
Qed.
End download_props.

(** C7, as claimed, fails: a dry run starts with the directory-ensure
    step, and where the output directory is a regular file that step
    raises, so that the dry run returns no path at all. *)
Lemma download_reports_dry_run_blocked :
  @download_reports (ascii_externals []) [sample_report] [py "downloads"]
    4 false true 60 blocked_world
  = (Raises (OSError [py "downloads"]), blocked_world).
Proof.
  apply @download_reports_mkdir_raises. vm_compute. reflexivity.
Qed.

Lemma download_reports_dry_run_witness :
  let E := ascii_externals sample_doc in
  ∃ paths,
    @download_reports E (@parse_reports E []) [py "downloads"] 4 false true 60
      empty_world
    = (Returns paths, (mkdir [py "downloads"] empty_world).2)
    ∧ fs_files (mkdir [py "downloads"] empty_world).2 = ∅
    ∧ requests_log (mkdir [py "downloads"] empty_world).2 = []
    ∧ length paths = 2%nat
    ∧ Forall2 (λ report path,
                 target_path report [py "downloads"] = Some path)
              (@parse_reports E []) paths.
Proof.
  intros E.
  apply (@download_reports_dry_run E (@parse_reports E []) [py "downloads"]
           4 false 60 empty_world).
  vm_compute. reflexivity.
Defined.

Lemma download_single_existing_witness :
  @_download_single (ascii_externals []) sample_report [py "downloads"]
    false 60 existing_world
  = (Returns sample_target, existing_world).
Proof.
  apply (@download_single_existing (ascii_externals []) sample_report
           [py "downloads"] 60 existing_world sample_target).
  - vm_compute. reflexivity.
  - vm_compute. reflexivity.
  - vm_compute. reflexivity.
Defined.

(** ** The tests of the repository, run on the embedding *)

(** [test_sanitize_helpers] *)
Example test_sanitize_helpers :
  sanitize_filename (py " report?.pdf ") = Some (py "report.pdf")
  ∧ sanitize_directory_name (py " /Year *") = py "Year".
Proof. split; by vm_compute. Qed.

(** [test_parse_reports] *)
Example test_parse_reports :
  let reports := @parse_reports (ascii_externals sample_doc) [] in
  map serial reports = [1; 2]
  ∧ map title reports = [py "First Report Title"; py "Second Report"]
  ∧ map download_url reports
    = [py "/SiteImage/Policy/report-1.pdf"; py "/SiteImage/Policy/report-2.pdf"]
  ∧ map year_code reports = [Some (py "y2"); Some (py "y1")]
  ∧ map year_label reports = [Some (py "2010-2011"); Some (py "2009 downwards")]
  ∧ map is_active reports = [Some true; Some false].
Proof. split_and!; by vm_compute. Qed.

(** [test_filter_reports_by_year]: a code and its label select the same
    report. *)
Example test_filter_reports_by_year :
  let E := ascii_externals sample_doc in
  let reports := @parse_reports E [] in
  map serial (@filter_reports E reports (Some [py "y2"]) None) = [1]
  ∧ map serial (@filter_reports E reports (Some [py "2010-2011"]) None) = [1].
Proof. split; by vm_compute. Qed.

(** A dry run and a live run from an empty file system: the dry run makes
    the output directory and nothing else. *)
Example dry_run_sample :
  let E := ascii_externals sample_doc in
  let reports := @parse_reports E [] in
  let '(result, w) :=
    @download_reports E reports [py "downloads"] 4 false true 60 empty_world in
  result = Returns
             [ [py "downloads"; py "2010-2011"; py "0001_First_Report_Title.pdf"];
               [py "downloads"; py "2009_downwards"; py "0002_Second_Report.pdf"] ]
  ∧ fs_files w = ∅ ∧ fs_dirs w = {[ [py "downloads"] ]} ∧ requests_log w = [].
Proof. by vm_compute. Qed.

(* ===================================================================== *)
(** * Further properties                                                  *)
(* ===================================================================== *)

(** ** [re.sub] around text it cannot match *)

Lemma re_sub_prefix_copy (pat : pattern) (repl : str → str) (f t : str) :
  (∀ c u, c ∈ f → pat (c :: u) = None) →
  re_sub pat repl (f ++ t) = f ++ re_sub pat repl t.
Proof.
  induction f as [|c f IH]; intros Hno; [done|].
  simpl. rewrite re_sub_cons.
  assert (pat (c :: f ++ t) = None) as -> by (apply Hno; by left).
  f_equal. apply IH. intros d u Hd. apply Hno. by right.
Qed.

Lemma run_length_app_stop (p : Z → bool) (u t : str) :
  head_not p t → run_length p (u ++ t) = run_length p u.
Proof.
  intros Ht. unfold run_length. induction u as [|c u IH]; simpl.
  - by rewrite take_while_nil.
  - destruct (p c); simpl; [by rewrite IH | done].
Qed.

Lemma run_length_le (p : Z → bool) (u : str) :
  (run_length p u ≤ length u)%nat.
Proof.
  unfold run_length. induction u as [|c u IH]; simpl; [done|].
  destruct (p c); simpl; lia.
Qed.

(** A suffix free of the class passes through [[class]+] unchanged. *)
Lemma re_sub_class_suffix (p : Z → bool) (rep u t : str) :
  Forall (λ c, p c = false) t →
  re_sub (pat_class_plus p) (λ _, rep) (u ++ t)
  = re_sub (pat_class_plus p) (λ _, rep) u ++ t.
Proof.
  intros Ht.
  assert (head_not p t) as Hh by (by destruct Ht).
  pattern u, (re_sub (pat_class_plus p) (λ _, rep) u). apply re_sub_ind.
  - simpl. apply re_sub_nomatch. intros v [k ->].
    apply Forall_app in Ht as [_ Hv].
    destruct Hv as [|c v Hc _]; [done|].
    by rewrite pat_class_plus_cons, Hc.
  - intros c v Hno IH. simpl. rewrite re_sub_cons, pat_class_plus_cons.
    rewrite pat_class_plus_cons in Hno.
    destruct (p c); [by edestruct Hno|]. by rewrite IH.
  - intros c v n Hm IH. simpl. rewrite re_sub_cons, pat_class_plus_cons.
    rewrite pat_class_plus_cons in Hm.
    destruct (p c); [|done]. injection Hm as <-.
    rewrite run_length_app_stop by done.
    rewrite drop_app_le by apply run_length_le.
    by rewrite IH, app_assoc.
Qed.

(** The text [_+(\.)] matched is replaced by its dot. *)
Lemma repl_group1_dot (s : str) (n : nat) :
  pat_underscores_dot s = Some (S n) → repl_group1 (take (S n) s) = [ch_dot].
Proof.
  unfold pat_underscores_dot.
  destruct (run_length is_underscore s) as [|k] eqn:Ek; [done|].
  destruct (s !! S k) as [d|] eqn:Ed; [|done].
  destruct (Z.eqb_spec d ch_dot) as [->|]; [|done]. intros [= <-].
  unfold repl_group1. rewrite (take_S_r _ _ _ Ed).
  pose proof (lookup_lt_Some _ _ _ Ed) as Hlt.
  apply drop_app_length'.
  rewrite length_app, !length_take. change (length [ch_dot]) with 1%nat. lia.
Qed.

(** One step of [re.sub(r"_+(\.)", r"\1", s)]. *)
Lemma drop_underscores_before_dot_cons (c : Z) (t : str) :
  drop_underscores_before_dot (c :: t) =
  if is_underscore c
     && bool_decide (t !! run_length is_underscore t = Some ch_dot)
  then ch_dot
       :: drop_underscores_before_dot (drop (S (run_length is_underscore t)) t)
  else c :: drop_underscores_before_dot t.
Proof.
  unfold drop_underscores_before_dot. rewrite re_sub_cons.
  destruct (pat_underscores_dot (c :: t)) as [[|n]|] eqn:E.
  - rewrite pat_underscores_dot_cons in E.
    destruct (is_underscore c); [|done].
    case_match; [|done]. by case_match.
  - rewrite (repl_group1_dot _ _ E).
    rewrite pat_underscores_dot_cons in E.
    destruct (is_underscore c); [|done].
    case_match eqn:Ed; [|done]. case_match eqn:Ec; [|done].
    apply Z.eqb_eq in Ec as ->. injection E as <-.
    by rewrite bool_decide_eq_true_2.
  - rewrite pat_underscores_dot_cons in E.
    destruct (is_underscore c); [|done]. simpl.
    case_match eqn:Ed.
    + case_match eqn:Ec; [done|].
      rewrite bool_decide_eq_false_2; [done|].
      intros [= ->]. done.
    + by rewrite bool_decide_eq_false_2.
Qed.

Lemma drop_underscores_before_dot_pdf (u : str) :
  ∃ u', drop_underscores_before_dot (u ++ py ".pdf") = u' ++ py ".pdf".
Proof.
  assert (∀ n u, (length u < n)%nat →
                 ∃ u', drop_underscores_before_dot (u ++ py ".pdf")
                       = u' ++ py ".pdf") as Hall;
    [|apply (Hall (S (length u))); lia].
  clear u. induction n as [|n IH]; intros u Hlen; [lia|].
  destruct u as [|c u]; [by exists []|]. simpl in Hlen.
  change ((c :: u) ++ py ".pdf") with (c :: (u ++ py ".pdf")).
  rewrite drop_underscores_before_dot_cons.
  rewrite (run_length_app_stop is_underscore u (py ".pdf")) by done.
  pose proof (run_length_le is_underscore u) as Hk.
  destruct (is_underscore c && _).
  - destruct (decide (run_length is_underscore u = length u)) as [Heq|Hne].
    + exists []. rewrite drop_app_ge by lia.
      replace (S (run_length is_underscore u) - length u)%nat with 1%nat by lia.
      done.
    + rewrite drop_app_le by lia.
      destruct (IH (drop (S (run_length is_underscore u)) u)) as [u' ->].
      { rewrite length_drop. lia. }
      by exists (ch_dot :: u').
  - destruct (IH u) as [u' ->]; [lia|]. by exists (c :: u').
Qed.

(** ** The serial in a file name *)

Lemma uint_digits_serial (u : Decimal.uint) :
  Forall (λ c, is_serial_char c = true) (uint_digits u).
Proof. induction u; simpl; by constructor. Qed.

Lemma format_04d_serial_chars (n : Z) :
  Forall (λ c, is_serial_char c = true) (format_04d n).
Proof.
  unfold format_04d. apply Forall_app. split.
  { destruct (n <? 0); by repeat constructor. }
  apply Forall_app. split; [|apply uint_digits_serial].
  by apply Forall_replicate.
Qed.

Lemma format_04d_length (n : Z) : (4 ≤ length (format_04d n))%nat.
Proof.
  unfold format_04d. rewrite !length_app, length_replicate. lia.
Qed.

Lemma format_04d_nonempty (n : Z) : format_04d n ≠ [].
Proof.
  intros E. pose proof (format_04d_length n) as Hlen.
  rewrite E in Hlen. simpl in Hlen. lia.
Qed.

Lemma is_serial_char_spec (c : Z) :
  is_serial_char c = true →
  allowed c = true ∧ is_underscore c = false ∧ (c =? ch_dot) = false
  ∧ in_chars strip_chars c = false.
Proof.
  unfold is_serial_char, allowed, is_underscore, in_chars, in_range.
  change (chr "A") with 65. change (chr "Z") with 90.
  change (chr "a") with 97. change (chr "z") with 122.
  change (chr "0") with 48. change (chr "9") with 57.
  unfold strip_chars, ch_dot, ch_underscore, ch_minus. simpl.
  change (chr ".") with 46. change (chr "_") with 95. change (chr " ") with 32.
  rewrite !orb_true_iff, !andb_true_iff, !orb_false_iff, !Z.leb_le,
    !Z.eqb_eq, !Z.eqb_neq. lia.
Qed.

(** Before the length check, the name built for a report keeps its serial
    in front and [".pdf"] at the end; what follows the serial is not a
    serial character. *)
Lemma sanitize_filename_pre_serial (f title : str) :
  f ≠ [] → Forall (λ c, is_serial_char c = true) f →
  ∃ m, sanitize_filename_pre (f ++ py "_" ++ title ++ py ".pdf")
       = f ++ m ++ py ".pdf"
       ∧ head_not is_serial_char (m ++ py ".pdf").
Proof.
  intros Hne Hf.
  assert (∀ c, c ∈ f → allowed c = true ∧ is_underscore c = false
                       ∧ (c =? ch_dot) = false
                       ∧ in_chars strip_chars c = false) as Hc.
  { intros c Hin. apply is_serial_char_spec.
    by apply (proj1 (Forall_forall _ _) Hf). }
  (* step 1 *)
  assert (∃ T1, _SANITIZE_TRANSLATION (f ++ py "_" ++ title ++ py ".pdf")
                = f ++ (ch_underscore :: T1) ++ py ".pdf") as [T1 E1].
  { exists (_SANITIZE_TRANSLATION title). unfold _SANITIZE_TRANSLATION.
    rewrite re_sub_prefix_copy.
    2:{ intros c u Hin. unfold pat_invalid_chars.
        rewrite pat_class_plus_cons. by destruct (Hc c Hin) as [-> _]. }
    rewrite (app_assoc (py "_")). unfold pat_invalid_chars.
    rewrite re_sub_class_suffix by by repeat constructor.
    rewrite re_sub_prefix_copy; [done|].
    intros c u ->%list_elem_of_singleton. by rewrite pat_class_plus_cons. }
  (* step 2 *)
  assert (∃ T2, collapse_underscores (f ++ (ch_underscore :: T1) ++ py ".pdf")
                = f ++ (ch_underscore :: T2) ++ py ".pdf"
                ∧ head_is ch_underscore T2 = false) as (T2 & E2 & H2).
  { exists (collapse_underscores (drop_while is_underscore T1)). split.
    - unfold collapse_underscores. rewrite re_sub_prefix_copy.
      2:{ intros c u Hin. unfold pat_underscores.
          rewrite pat_class_plus_cons. by destruct (Hc c Hin) as (_ & -> & _). }
      unfold pat_underscores.
      rewrite re_sub_class_suffix by by repeat constructor.
      rewrite re_sub_cons, pat_class_plus_cons. simpl.
      by rewrite drop_run_length.
    - apply collapse_underscores_no_run, head_is_false_not,
        (drop_while_head_not is_underscore). }
  (* step 3 *)
  assert (∃ m, drop_underscores_before_dot
                 (f ++ (ch_underscore :: T2) ++ py ".pdf")
               = f ++ m ++ py ".pdf"
               ∧ head_not is_serial_char (m ++ py ".pdf")) as (m & E3 & H3).
  { unfold drop_underscores_before_dot at 1. rewrite re_sub_prefix_copy.
    2:{ intros c u Hin. rewrite pat_underscores_dot_cons.
        by destruct (Hc c Hin) as (_ & -> & _). }
    fold (drop_underscores_before_dot ((ch_underscore :: T2) ++ py ".pdf")).
    change ((ch_underscore :: T2) ++ py ".pdf")
      with (ch_underscore :: (T2 ++ py ".pdf")).
    rewrite drop_underscores_before_dot_cons.
    assert (run_length is_underscore (T2 ++ py ".pdf") = O) as ->.
    { apply run_length_head_not. destruct T2 as [|d T2]; [done|].
      simpl in *. done. }
    destruct T2 as [|d T2].
    - exists []. done.
    - simpl in H2. change (is_underscore ch_underscore) with true. simpl.
      destruct (Z.eqb_spec d ch_dot) as [->|Hd].
      + rewrite bool_decide_eq_true_2 by done. rewrite drop_0.
        destruct (drop_underscores_before_dot_pdf T2) as [u' ->].
        by exists (ch_dot :: u').
      + rewrite bool_decide_eq_false_2 by (intros [= ->]; done).
        change (d :: T2 ++ py ".pdf") with ((d :: T2) ++ py ".pdf").
        destruct (drop_underscores_before_dot_pdf (d :: T2)) as [u' ->].
        by exists (ch_underscore :: u'). }
  exists m. split; [|done].
  unfold sanitize_filename_pre. rewrite E1, E2, E3.
  destruct f as [|c0 f]; [done|].
  unfold strip. rewrite strip_by_id.
  - done.
  - simpl. apply Hc. by left.
  - rewrite !reverse_app. done.
Qed.

Lemma drop_while_app_keep {A} (p : A → bool) (l k : list A) :
  head_not p k → drop_while p (l ++ k) = drop_while p l ++ k.
Proof.
  intros Hk. induction l as [|x l IH]; simpl.
  - by apply drop_while_id.
  - by destruct (p x).
Qed.

Lemma take_while_app_stop {A} (p : A → bool) (l k : list A) :
  Forall (λ x, p x = true) l → head_not p k → take_while p (l ++ k) = l.
Proof.
  intros Hl Hk. induction Hl as [|x l Hx _ IH]; simpl.
  - by apply take_while_nil.
  - by rewrite Hx, IH.
Qed.

(** Stripping the right end stops at text whose last character stays. *)
Lemma rstrip_by_app_keep (p : Z → bool) (f w : str) :
  head_not p (reverse f) → rstrip_by p (f ++ w) = f ++ rstrip_by p w.
Proof.
  intros Hf. unfold rstrip_by.
  rewrite reverse_app, drop_while_app_keep by done.
  by rewrite reverse_app, reverse_involutive.
Qed.

Lemma serial_chars_last (f : str) :
  Forall (λ c, is_serial_char c = true) f →
  head_not (in_chars strip_chars) (reverse f).
Proof.
  intros Hf. apply Forall_reverse in Hf.
  destruct Hf as [|c r Hc _]; [done|]. simpl.
  by apply is_serial_char_spec in Hc as (_ & _ & _ & ?).
Qed.

(** What [sanitize_filename] returns for a serial, an underscore, a title
    and [".pdf"]: at most 200 characters ending in [".pdf"], and behind a
    serial of at most 196 characters something that is not a serial
    character. *)
Lemma sanitize_serial_name (f title : str) :
  f ≠ [] → Forall (λ c, is_serial_char c = true) f →
  ∃ stem,
    sanitize_filename (f ++ py "_" ++ title ++ py ".pdf")
    = Some (stem ++ py ".pdf")
    ∧ clean (stem ++ py ".pdf")
    ∧ (length (stem ++ py ".pdf") ≤ 200)%nat
    ∧ ((length f ≤ 196)%nat →
       ∃ m, stem = f ++ m ∧ head_not is_serial_char (m ++ py ".pdf")).
Proof.
  intros Hne Hf.
  destruct (sanitize_filename_pre_serial f title Hne Hf) as (m & Epre & Hm).
  pose proof (sanitize_filename_pre_clean (f ++ py "_" ++ title ++ py ".pdf"))
    as Hclean.
  destruct (sanitize_filename_cases (f ++ py "_" ++ title ++ py ".pdf"))
    as [[Hle E] | [Hgt E]]; rewrite E; rewrite Epre in *; clear E.
  - exists (f ++ m). rewrite <- app_assoc.
    unfold MAX_FILENAME_BYTES in Hle. split_and!; [done | done | lia |].
    intros _. by exists m.
  - destruct f as [|c f]; [done|].
    assert (is_serial_char c = true) as Hc by (by inversion Hf).
    apply is_serial_char_spec in Hc as (_ & _ & Hcd & Hcs).
    assert (splitext ((c :: f) ++ m ++ py ".pdf")
            = ((c :: f) ++ m, py ".pdf")) as Hsp.
    { rewrite app_assoc.
      apply (splitext_dot c (f ++ m) (py "pdf")).
      - replace ((c :: f ++ m) ++ ch_dot :: py "pdf")
          with ((c :: f) ++ m ++ py ".pdf")
          by (simpl; by rewrite <- app_assoc).
        by apply clean_no_slash.
      - apply not_elem_of_cons; split; [done|].
        apply not_elem_of_cons; split; [done|].
        apply not_elem_of_cons; split; [done|]. apply not_elem_of_nil.
      - by apply Z.eqb_neq. }
    assert (kept_ext ((c :: f) ++ m ++ py ".pdf") = py ".pdf") as Hk.
    { unfold kept_ext. by rewrite Hsp. }
    pose proof (clean_ascii _ Hclean) as Hascii.
    rewrite app_assoc in Hascii. apply Forall_app in Hascii as [Hs He].
    rewrite (sanitize_filename_truncate_ascii _ _ _ Hsp) by (by rewrite ?Hk).
    rewrite Hk. change (Z.to_nat (available_for (py ".pdf"))) with 196%nat.
    destruct (rstrip_by_cons (in_chars strip_chars) c (take 195 (f ++ m)) Hcs)
      as [r Er].
    pose proof (rstrip_by_length (in_chars strip_chars)
                  (take 196 ((c :: f) ++ m))) as Hlen.
    rewrite length_take in Hlen.
    change (take 196 ((c :: f) ++ m)) with (c :: take 195 (f ++ m)) in *.
    unfold rstrip in *. rewrite Er in *.
    exists (c :: r). unfold or_default. cbn [truthy].
    destruct (sanitize_filename_truncate_spec _ Hclean)
      as (c' & r' & e' & Et & _ & _ & _ & _ & _ & Hclean').
    rewrite (sanitize_filename_truncate_ascii _ _ _ Hsp) in Et
      by (by rewrite ?Hk).
    rewrite Hk in Et.
    change (Z.to_nat (available_for (py ".pdf"))) with 196%nat in Et.
    change (take 196 ((c :: f) ++ m)) with (c :: take 195 (f ++ m)) in Et.
    unfold rstrip in Et. rewrite Er in Et. unfold or_default in Et.
    cbn [truthy] in Et. apply (inj Some) in Et.
    split_and!.
    + done.
    + by rewrite Et.
    + rewrite length_app. change (length (py ".pdf")) with 4%nat. lia.
    + intros Hf196.
      assert (c :: take 195 (f ++ m)
              = (c :: f) ++ take (196 - length (c :: f)) m) as Htake.
      { change (c :: take 195 (f ++ m)) with (take 196 ((c :: f) ++ m)).
        rewrite take_app. by rewrite take_ge by lia. }
      rewrite Htake in Er.
      rewrite rstrip_by_app_keep in Er by by apply serial_chars_last.
      exists (rstrip_by (in_chars strip_chars)
                (take (196 - length (c :: f)) m)).
      split; [done|].
      destruct (rstrip_by_split (in_chars strip_chars)
                  (take (196 - length (c :: f)) m)) as (tail & Hsplit & _).
      destruct (rstrip_by (in_chars strip_chars)
                  (take (196 - length (c :: f)) m)) as [|x w]; [done|].
      destruct m as [|y m]; [by destruct (196 - length (c :: f))%nat|].
      destruct (196 - length (c :: f))%nat; [done|].
      simpl in Hsplit. injection Hsplit as -> _. exact Hm.
Qed.

Lemma target_path_name (r : Report) (base_dir : Path) :
  ∃ directory name,
    target_path r base_dir = Some (directory ++ [name])
    ∧ sanitize_filename (raw_filename r) = Some name.
Proof.
  destruct (target_path_parts r base_dir) as (name & E & _ & Ht).
  destruct (year_label r) as [label|]; [destruct (truthy label)|].
  - exists (base_dir ++ [sanitize_directory_name label]), name.
    by rewrite <- app_assoc.
  - by exists base_dir, name.
  - by exists base_dir, name.
Qed.

Lemma digits_uint_uint_digits (u : Decimal.uint) :
  digits_uint (uint_digits u) = u.
Proof. induction u; simpl; by f_equal. Qed.

Lemma of_uint_zeros (k : nat) (s : str) :
  N.of_uint (digits_uint (replicate k ch_zero ++ s))
  = N.of_uint (digits_uint s).
Proof. induction k as [|k IH]; [done|]. simpl. exact IH. Qed.

Lemma padded_digits_value (k : nat) (n : Z) :
  N.of_uint (digits_uint (replicate k ch_zero ++ abs_digits n)) = Z.abs_N n.
Proof.
  rewrite of_uint_zeros. unfold abs_digits.
  rewrite digits_uint_uint_digits. apply DecimalN.Unsigned.of_to.
Qed.

Lemma uint_digits_no_minus (u : Decimal.uint) :
  Forall (λ c, c ≠ ch_minus) (uint_digits u).
Proof. induction u; simpl; by constructor. Qed.

Lemma padded_digits_no_minus (k : nat) (n : Z) :
  Forall (λ c, c ≠ ch_minus) (replicate k ch_zero ++ abs_digits n).
Proof.
  apply Forall_app. split; [by apply Forall_replicate|].
  apply uint_digits_no_minus.
Qed.

(** [04d] loses nothing: the serial can be read back from its text. *)
Lemma format_04d_inj (n1 n2 : Z) : format_04d n1 = format_04d n2 → n1 = n2.
Proof.
  unfold format_04d.
  set (k1 := (4 - _ - length (abs_digits n1))%nat).
  set (k2 := (4 - _ - length (abs_digits n2))%nat).
  pose proof (padded_digits_value k1 n1) as H1.
  pose proof (padded_digits_value k2 n2) as H2.
  pose proof (padded_digits_no_minus k1 n1) as M1.
  pose proof (padded_digits_no_minus k2 n2) as M2.
  clearbody k1 k2.
  destruct (Z.ltb_spec n1 0), (Z.ltb_spec n2 0); simpl; intros E.
  - injection E as E. rewrite E in H1. lia.
  - rewrite <- E in M2. inversion M2 as [|x l Hx Hl]. by destruct Hx.
  - rewrite E in M1. inversion M1 as [|x l Hx Hl]. by destruct Hx.
  - rewrite E in H1. lia.
Qed.

(** X1. The file name of every target path ends in [".pdf"] and its UTF-8
    encoding is at most 200 bytes long, whatever the serial and the title. *)
Theorem target_name_pdf_bounded (r : Report) (base_dir : Path) :
  ∃ directory stem enc,
    target_path r base_dir = Some (directory ++ [stem ++ py ".pdf"])
    ∧ str_encode (stem ++ py ".pdf") = Some enc
    ∧ (length enc ≤ 200)%nat.
Proof.
  destruct (target_path_name r base_dir) as (directory & name & Ht & En).
  destruct (sanitize_serial_name (format_04d (serial r)) (title r))
    as (stem & Es & Hclean & Hlen & _).
  { apply format_04d_nonempty. }
  { apply format_04d_serial_chars. }
  unfold raw_filename in En. rewrite Es in En. injection En as <-.
  exists directory, stem, (stem ++ py ".pdf").
  split_and!; [done | | done].
  by apply str_encode_ascii, clean_ascii.
Qed.

(** X2. The file name of the target path starts with the serial as [04d]
    writes it, followed by a character that is neither a digit nor a minus
    sign, provided the formatted serial is at most 196 characters long. *)
Theorem target_name_starts_with_serial (r : Report) (base_dir : Path) :
  (length (format_04d (serial r)) ≤ 196)%nat →
  ∃ directory c rest,
    target_path r base_dir
    = Some (directory ++ [format_04d (serial r) ++ c :: rest])
    ∧ is_serial_char c = false.
Proof.
  intros Hlen.
  destruct (target_path_name r base_dir) as (directory & name & Ht & En).
  destruct (sanitize_serial_name (format_04d (serial r)) (title r))
    as (stem & Es & _ & _ & Hm).
  { apply format_04d_nonempty. }
  { apply format_04d_serial_chars. }
  destruct (Hm Hlen) as (m & -> & Hhead).
  unfold raw_filename in En. rewrite Es in En. injection En as <-.
  destruct (m ++ py ".pdf") as [|c rest] eqn:E.
  { by destruct m. }
  exists directory, c, rest. split; [|done].
  by rewrite Ht, <- app_assoc, E.
Qed.

Lemma target_name_starts_with_serial_witness :
  ∃ directory c rest,
    target_path long_title_report [py "out"]
    = Some (directory ++ [py "-012" ++ c :: rest])
    ∧ is_serial_char c = false.
Proof.
  apply (target_name_starts_with_serial long_title_report [py "out"]).
  vm_compute. lia.
Defined.

Lemma target_serial_prefix (r : Report) (base_dir : Path) :
  (length (format_04d (serial r)) ≤ 196)%nat →
  ∃ target rest,
    target_path r base_dir = Some target
    ∧ last target = Some (format_04d (serial r) ++ rest)
    ∧ head_not is_serial_char rest.
Proof.
  intros Hlen.
  destruct (target_path_name r base_dir) as (directory & name & Ht & En).
  destruct (sanitize_serial_name (format_04d (serial r)) (title r))
    as (stem & Es & _ & _ & Hm).
  { apply format_04d_nonempty. }
  { apply format_04d_serial_chars. }
  destruct (Hm Hlen) as (m & -> & Hhead).
  unfold raw_filename in En. rewrite Es in En. injection En as <-.
  exists (directory ++ [(format_04d (serial r) ++ m) ++ py ".pdf"]),
         (m ++ py ".pdf").
  split_and!; [done | | done].
  by rewrite last_snoc, <- app_assoc.
Qed.

(** X3. Two reports with different serials never get the same target path,
    whatever their titles, labels and base directories, provided each
    formatted serial is at most 196 characters long. *)
Theorem target_path_serial_inj (r1 r2 : Report) (base1 base2 : Path) :
  (length (format_04d (serial r1)) ≤ 196)%nat →
  (length (format_04d (serial r2)) ≤ 196)%nat →
  target_path r1 base1 = target_path r2 base2 →
  serial r1 = serial r2.
Proof.
  intros H1 H2 E.
  destruct (target_serial_prefix r1 base1 H1) as (t1 & rest1 & E1 & L1 & N1).
  destruct (target_serial_prefix r2 base2 H2) as (t2 & rest2 & E2 & L2 & N2).
  rewrite E1, E2 in E. injection E as ->.
  rewrite L1 in L2. injection L2 as L.
  apply format_04d_inj.
  rewrite <- (take_while_app_stop is_serial_char (format_04d (serial r1)) rest1)
    by (apply format_04d_serial_chars || done).
  rewrite L.
  by rewrite take_while_app_stop by (apply format_04d_serial_chars || done).
Qed.

Lemma target_path_serial_inj_witness :
  title sample_report ≠ title respelled_report
  ∧ target_path sample_report [py "out"]
    = Some [py "out"; py "2010-2011"; py "0003_Report_with_invalid_chars.pdf"]
  ∧ target_path respelled_report [py "out"; py "2010-2011"]
    = Some [py "out"; py "2010-2011"; py "0003_Report_with_invalid_chars.pdf"]
  ∧ serial sample_report = serial respelled_report.
Proof.
  split_and!.
  - discriminate.
  - vm_compute. reflexivity.
  - vm_compute. reflexivity.
  - apply (target_path_serial_inj sample_report respelled_report
             [py "out"] [py "out"; py "2010-2011"]).
    + vm_compute. lia.
    + vm_compute. lia.
    + vm_compute. reflexivity.
Defined.

(** ** More on the sanitizer *)

(** X4. [sanitize_directory_name] is idempotent. *)
Theorem sanitize_directory_name_idempotent (x : str) :
  sanitize_directory_name (sanitize_directory_name x)
  = sanitize_directory_name x.
Proof.
  destruct (sanitize_directory_name_props x) as (Hne & Ha & Hh & Hl).
  generalize dependent (sanitize_directory_name x). intros d Hne Ha Hh Hl.
  unfold sanitize_directory_name.
  rewrite sanitize_translation_id by done.
  unfold strip. rewrite strip_by_id by done.
  by destruct d.
Qed.

(** X5. The names [sanitize_filename] returns unchanged are clean, and a
    clean name of at most 200 characters is returned unchanged. *)
Theorem sanitize_filename_fixed_points (y : str) :
  (sanitize_filename y = Some y → clean y)
  ∧ (clean y → Z.of_nat (length y) ≤ MAX_FILENAME_BYTES →
     sanitize_filename y = Some y).
Proof.
  split.
  - intros E. destruct (sanitize_filename_clean y) as (y' & E' & Hc).
    rewrite E in E'. by injection E' as <-.
  - apply sanitize_filename_fits_id.
Qed.

Lemma sanitize_filename_fixed_points_witness :
  sanitize_filename (py "0001_Annual-report.v2.pdf")
  = Some (py "0001_Annual-report.v2.pdf").
Proof.
  apply (proj2 (sanitize_filename_fixed_points
                  (py "0001_Annual-report.v2.pdf"))).
  - apply cleanb_clean. vm_compute. reflexivity.
  - vm_compute. discriminate.
Defined.

Lemma drop_while_all {A} (p : A → bool) (l : list A) :
  Forall (λ x, p x = true) l → drop_while p l = [].
Proof. induction 1 as [|x l Hx _ IH]; simpl; [done|]. by rewrite Hx. Qed.

Lemma sanitize_translation_stripped (x : str) :
  Forall (λ c, allowed c = false ∨ in_chars strip_chars c = true) x →
  Forall (λ c, in_chars strip_chars c = true) (_SANITIZE_TRANSLATION x).
Proof.
  unfold _SANITIZE_TRANSLATION.
  pattern x, (re_sub pat_invalid_chars (λ _, py "_") x). apply re_sub_ind.
  - constructor.
  - intros c t Hno IH Hx. inversion Hx as [|? ? Hc Ht]; subst.
    constructor; [|by apply IH].
    unfold pat_invalid_chars in Hno. rewrite pat_class_plus_cons in Hno.
    destruct Hc as [Hc|Hc]; [|done]. rewrite Hc in Hno. by edestruct Hno.
  - intros c t n _ IH Hx. inversion Hx as [|? ? Hc Ht]; subst.
    apply Forall_app. split; [by repeat constructor|].
    by apply IH, Forall_drop.
Qed.

(** X6. A name without a character of [[A-Za-z0-9-]] (the empty name,
    punctuation, dots and underscores only, text in another script) becomes
    ["report.pdf"] as a file name and ["Unknown-Year"] as a directory
    name. *)
Theorem sanitize_fallback (x : str) :
  Forall (λ c, allowed c = false ∨ in_chars strip_chars c = true) x →
  sanitize_filename x = Some (py "report.pdf")
  ∧ sanitize_directory_name x = py "Unknown-Year".
Proof.
  intros Hx. pose proof (sanitize_translation_stripped x Hx) as H1.
  split.
  - assert (sanitize_filename_pre x = py "report.pdf") as Hpre.
    { unfold sanitize_filename_pre.
      assert (Forall (λ c, in_chars strip_chars c = true)
                (drop_underscores_before_dot
                   (collapse_underscores (_SANITIZE_TRANSLATION x)))) as H3.
      { apply re_sub_Forall; [intros m Hm; by apply Forall_drop|].
        apply re_sub_Forall; [intros _ _; by repeat constructor | done]. }
      unfold strip, strip_by, lstrip_by.
      by rewrite (drop_while_all _ _ H3). }
    unfold sanitize_filename. by rewrite Hpre.
  - unfold sanitize_directory_name, strip, strip_by, lstrip_by.
    by rewrite (drop_while_all _ _ H1).
Qed.

Lemma sanitize_fallback_witness :
  sanitize_filename (py "?? ../__ ") = Some (py "report.pdf")
  ∧ sanitize_directory_name (py "?? ../__ ") = py "Unknown-Year".
Proof.
  apply (sanitize_fallback (py "?? ../__ ")).
  repeat (constructor; [vm_compute; tauto|]). constructor.
Defined.

(** ** Reports as the parser builds them *)

Lemma strip_ws_head (s : str) : head_not py_isspace (strip_ws s).
Proof. apply strip_by_head. Qed.

Lemma strip_ws_last (s : str) : head_not py_isspace (reverse (strip_ws s)).
Proof. apply strip_by_last. Qed.

Lemma strip_ws_trimmed (s : str) : trimmed (strip_ws s).
Proof. apply strip_by_id; [apply strip_ws_head | apply strip_ws_last]. Qed.

Lemma join_ends (sep : str) (parts : list str) :
  Forall (λ e, e ≠ [] ∧ head_not py_isspace e
               ∧ head_not py_isspace (reverse e)) parts →
  parts ≠ [] →
  join sep parts ≠ [] ∧ head_not py_isspace (join sep parts)
  ∧ head_not py_isspace (reverse (join sep parts)).
Proof.
  induction 1 as [|x rest (Hne & Hh & Hl) _ IH]; [done|]. intros _.
  destruct rest as [|y rest]; [done|].
  destruct IH as (Jne & Jh & Jl); [done|].
  change (join sep (x :: y :: rest)) with (x ++ sep ++ join sep (y :: rest)).
  split_and!.
  - by destruct x.
  - by apply head_not_app.
  - rewrite !reverse_app, <- app_assoc. apply head_not_app; [|done].
    intros E. apply (f_equal length) in E. rewrite length_reverse in E.
    by destruct (join sep (y :: rest)).
Qed.

(** [get_text(strip=True)] has no whitespace at either end. *)
Lemma get_text_trimmed (sep : str) (n : node) : trimmed (get_text sep true n).
Proof.
  unfold get_text, all_strings.
  set (parts := List.filter truthy _).
  destruct parts as [|x rest] eqn:E; [done|].
  destruct (join_ends sep parts) as (_ & Hh & Hl).
  - apply Forall_forall. intros e He. subst parts.
    apply list_elem_of_In, filter_In in He as [He Ht].
    apply in_map_iff in He as (s & <- & _).
    split_and!; [by destruct (strip_ws s) | apply strip_ws_head
                 | apply strip_ws_last].
  - by rewrite E.
  - rewrite <- E. by apply strip_by_id.
Qed.

Lemma safe_cell_text_trimmed (cells : list node) (i : nat) :
  trimmed (_safe_cell_text cells i).
Proof.
  unfold _safe_cell_text. destruct (cells !! i); [apply get_text_trimmed|done].
Qed.

Lemma or_None_Some (s c : str) : or_None s = Some c → c = s ∧ c ≠ [].
Proof. unfold or_None. destruct s; [done|]. by intros [= <-]. Qed.

Section parsed_reports.
Context `{Externals}.

(** What a row that parses looks like. *)
Lemma parse_row_Some (tr : node) (year_map : gmap str str) (r : Report) :
  _parse_row tr year_map = Some r →
  ∃ c0 c1 c2 c3 rest a href,
    row_cells tr = c0 :: c1 :: c2 :: c3 :: rest
    ∧ py_int (get_text [] true c0) = Some (serial r)
    ∧ find (py "a") c3 = Some a
    ∧ get a (py "href") = Some href ∧ href ≠ []
    ∧ title r = get_text (py " ") true c1
    ∧ date_text r = get_text [] true c2
    ∧ download_url r = href
    ∧ year_code r = or_None (_safe_cell_text (row_cells tr) 4)
    ∧ year_label r
      = (if truthy (_safe_cell_text (row_cells tr) 4)
         then year_map !! strip_ws (_safe_cell_text (row_cells tr) 4)
         else None)
    ∧ report_code r = or_None (_safe_cell_text (row_cells tr) 5)
    ∧ type_code r = or_None (_safe_cell_text (row_cells tr) 6)
    ∧ is_active r = parse_is_active (_safe_cell_text (row_cells tr) 7).
Proof.
  unfold _parse_row. fold (row_cells tr).
  destruct (row_cells tr) as [|c0 [|c1 [|c2 [|c3 rest]]]]; try done.
  cbn [length Nat.ltb Nat.leb].
  destruct (py_int (get_text [] true c0)) as [n|] eqn:En; [|done].
  destruct (find (py "a") c3) as [a|] eqn:Ea; [|done].
  destruct (get a (py "href")) as [href|] eqn:Eh; [|done].
  destruct href as [|h href]; [done|]. cbn [truthy negb].
  intros [= <-]. exists c0, c1, c2, c3, rest, a, (h :: href).
  cbn [serial title date_text download_url year_code year_label report_code
       type_code is_active].
  split_and!; try done.
  unfold or_default.
  by destruct (_safe_cell_text (c0 :: c1 :: c2 :: c3 :: rest) 4).
Qed.

(** X7. The text fields of a Report the parser builds (title, date, year
    code, report code, type code) carry no whitespace at either end. *)
Theorem parsed_fields_trimmed (tr : node) (year_map : gmap str str)
        (r : Report) :
  _parse_row tr year_map = Some r →
  trimmed (title r) ∧ trimmed (date_text r)
  ∧ (∀ c, year_code r = Some c → trimmed c)
  ∧ (∀ c, report_code r = Some c → trimmed c)
  ∧ (∀ c, type_code r = Some c → trimmed c).
Proof.
  intros (c0 & c1 & c2 & c3 & rest & a & href & _ & _ & _ & _ & _
          & -> & -> & _ & -> & _ & -> & -> & _)%parse_row_Some.
  split_and!; try apply get_text_trimmed;
    intros c [-> _]%or_None_Some; apply safe_cell_text_trimmed.
Qed.

(** X8. A Report the parser builds has a non-empty download URL, and its
    year code, report code and type code are [None] rather than the empty
    string. *)
Theorem parsed_fields_not_empty (tr : node) (year_map : gmap str str)
        (r : Report) :
  _parse_row tr year_map = Some r →
  download_url r ≠ [] ∧ year_code r ≠ Some []
  ∧ report_code r ≠ Some [] ∧ type_code r ≠ Some [].
Proof.
  intros (c0 & c1 & c2 & c3 & rest & a & href & _ & _ & _ & _ & Hne
          & _ & _ & -> & -> & _ & -> & -> & _)%parse_row_Some.
  split_and!; [done|..]; by intros [_ ?]%or_None_Some.
Qed.

(** X9. The year label of a Report the parser builds is the entry of the
    year mapping for its year code (stripping the code changes nothing),
    and [None] for a Report without year code. *)
Theorem parsed_year_label (tr : node) (year_map : gmap str str) (r : Report) :
  _parse_row tr year_map = Some r →
  year_label r = match year_code r with
                 | Some code => year_map !! code
                 | None => None
                 end.
Proof.
  intros (c0 & c1 & c2 & c3 & rest & a & href & _ & _ & _ & _ & _
          & _ & _ & _ & -> & -> & _)%parse_row_Some.
  rewrite (safe_cell_text_trimmed (row_cells tr) 4).
  unfold or_None. by destruct (_safe_cell_text (row_cells tr) 4).
Qed.

(** X10. A row with exactly four cells that parses gives a Report without
    year code, year label, report code, type code and status. *)
Theorem parsed_four_cells (tr : node) (year_map : gmap str str) (r : Report) :
  length (row_cells tr) = 4%nat →
  _parse_row tr year_map = Some r →
  year_code r = None ∧ year_label r = None ∧ report_code r = None
  ∧ type_code r = None ∧ is_active r = None.
Proof.
  intros Hlen (c0 & c1 & c2 & c3 & rest & a & href & Hcells & _ & _ & _ & _
          & _ & _ & _ & -> & -> & -> & -> & ->)%parse_row_Some.
  rewrite Hcells in *. destruct rest; [|done]. done.
Qed.
End parsed_reports.

Lemma parsed_fields_trimmed_witness :
  ∃ r, @_parse_row (ascii_externals []) four_cell_row ∅ = Some r
       ∧ serial r = 12 ∧ title r = py "Special   Audit"
       ∧ trimmed (title r).
Proof.
  eexists. split; [vm_compute; reflexivity|].
  split; [reflexivity|]. split; [reflexivity|].
  apply (@parsed_fields_trimmed (ascii_externals []) four_cell_row ∅).
  vm_compute. reflexivity.
Defined.

Lemma parsed_fields_not_empty_witness :
  ∃ r, @_parse_row (ascii_externals []) four_cell_row ∅ = Some r
       ∧ download_url r ≠ [].
Proof.
  eexists. split; [vm_compute; reflexivity|].
  apply (@parsed_fields_not_empty (ascii_externals []) four_cell_row ∅).
  vm_compute. reflexivity.
Defined.

Lemma parsed_year_label_witness :
  ∃ r, @_parse_row (ascii_externals []) labelled_row
         (_extract_year_mapping sample_doc) = Some r
       ∧ year_code r = Some (py "y1")
       ∧ year_label r = Some (py "2009 downwards").
Proof.
  eexists. split; [vm_compute; reflexivity|].
  split; [reflexivity|].
  rewrite (@parsed_year_label (ascii_externals []) labelled_row
             (_extract_year_mapping sample_doc));
    vm_compute; reflexivity.
Defined.

Lemma parsed_four_cells_witness :
  ∃ r, @_parse_row (ascii_externals []) four_cell_row ∅ = Some r
       ∧ year_code r = None ∧ is_active r = None.
Proof.
  eexists. split; [vm_compute; reflexivity|].
  destruct (@parsed_four_cells (ascii_externals []) four_cell_row ∅ _
              eq_refl eq_refl) as (? & _ & _ & _ & ?).
  by split.
Defined.

(** ** The year mapping and the Reports of a listing *)

Lemma year_mapping_entry (soup : list node) (code label : str) :
  _extract_year_mapping soup !! code = Some label →
  label ≠ [] ∧ trimmed label ∧ trimmed code.
Proof.
  unfold _extract_year_mapping. rewrite fold_year_mapping, lookup_empty.
  unfold first_label.
  destruct (head _) as [o|] eqn:E; [|done]. intros [= <-].
  apply head_Some_elem_of, list_elem_of_In, filter_In in E as [Ho Hcode].
  apply filter_In in Ho as [_ Hkept].
  apply str_eqb_eq in Hcode as <-.
  unfold option_kept in Hkept. apply andb_true_iff in Hkept as [_ Ht].
  unfold option_label, option_code.
  split_and!; [by destruct (strip_ws (text o)) | apply strip_ws_trimmed
               | apply strip_ws_trimmed].
Qed.

(** X11. In the year mapping extracted from a document every label is
    non-empty, and neither a code nor a label carries whitespace at either
    end. *)
Theorem year_mapping_entries (soup : list node) (code label : str) :
  _extract_year_mapping soup !! code = Some label →
  label ≠ [] ∧ trimmed label ∧ trimmed code.
Proof. apply year_mapping_entry. Qed.

Lemma year_mapping_entries_witness :
  py "2010-2011" ≠ [] ∧ trimmed (py "2010-2011") ∧ trimmed (py "y2").
Proof.
  apply (year_mapping_entries sample_doc). vm_compute. reflexivity.
Defined.

Section listing_reports.
Context `{Externals}.

Lemma parse_reports_elem (html : str) (r : Report) :
  r ∈ parse_reports html →
  ∃ tr, _parse_row tr (_extract_year_mapping (html_parser html)) = Some r.
Proof.
  rewrite parse_reports_omap. intros (tr & _ & E)%list_elem_of_omap. eauto.
Qed.

Lemma parse_reports_no_empty_year (html : str) (r : Report) :
  r ∈ parse_reports html →
  year_code r ≠ Some [] ∧ year_label r ≠ Some [].
Proof.
  intros [tr E]%parse_reports_elem.
  pose proof (parse_row_Some _ _ _ E)
    as (c0 & c1 & c2 & c3 & rest & a & href & _ & _ & _ & _ & _
        & _ & _ & _ & Hcode & Hlabel & _).
  split.
  - rewrite Hcode. by intros [_ ?]%or_None_Some.
  - rewrite Hlabel. destruct (truthy _); [|done].
    intros Hl. by apply year_mapping_entry in Hl as [? _].
Qed.

(** X12. For the Reports of a parsed listing the target path has a
    subdirectory whenever the year label is present: the parser never leaves
    an empty label. *)
Theorem listing_target_path_every_label (html : str) (r : Report)
        (base_dir : Path) :
  r ∈ parse_reports html →
  target_path r base_dir = target_path_every_label r base_dir.
Proof.
  intros [_ Hl]%parse_reports_no_empty_year.
  unfold target_path, target_path_every_label, raw_filename.
  by destruct (year_label r) as [[|c label]|].
Qed.

Lemma filter_reports_elem (reports : list Report)
      (years : option (list str)) (query : option str) (r : Report) :
  r ∈ filter_reports reports years query ↔
  r ∈ reports
  ∧ match years with
    | Some (y :: ys) => year_filter (lower_set (y :: ys)) r = true
    | _ => True
    end
  ∧ match query with
    | Some q =>
        if truthy q then query_filter (str_lower q) r = true else True
    | None => True
    end.
Proof.
  unfold filter_reports. rewrite fold_left_append_filter. simpl.
  rewrite !list_elem_of_In, filter_In, andb_true_iff.
  apply Morphisms_Prop.and_iff_morphism; [done|].
  apply Morphisms_Prop.and_iff_morphism.
  - destruct years as [[|y ys]|]; [done | | done].
    by rewrite negb_involutive.
  - destruct query as [q|]; [|done].
    destruct (truthy q); [|done]. by rewrite negb_involutive.
Qed.

(** X13. On the Reports of a parsed listing a non-empty list of years
    selects exactly the Reports one of whose non-[None] year code and year
    label equals, in lower case, one of the tokens in lower case: the parser
    leaves no empty value for the filter to drop. *)
Theorem listing_year_filter (html : str) (y : str) (ys : list str)
        (r : Report) :
  r ∈ filter_reports (parse_reports html) (Some (y :: ys)) None
  ↔ r ∈ parse_reports html
    ∧ year_sets_intersect (year_values r) (y :: ys).
Proof.
  rewrite filter_reports_elem. split.
  - intros (Hr & Hy & _). split; [done|].
    apply year_filter_spec in Hy as (v & t & Hv & Ht & E).
    exists v, t. split_and!; [|done|done].
    by apply list_elem_of_In, filter_In in Hv as [?%list_elem_of_In _].
  - intros (Hr & v & t & Hv & Ht & E). split_and!; [done | | done].
    apply year_filter_spec. exists v, t. split_and!; [|done|done].
    apply list_elem_of_In, filter_In. split; [by apply list_elem_of_In|].
    destruct (parse_reports_no_empty_year html r Hr) as [Hc Hl].
    destruct v; [|done]. exfalso.
    apply list_elem_of_omap in Hv as (o & Ho & Eo). simpl in Eo. subst o.
    apply list_elem_of_In in Ho. simpl in Ho.
    by destruct Ho as [Ho|[Ho|[]]].
Qed.
End listing_reports.

Lemma first_sample_report_parsed :
  first_sample_report ∈ @parse_reports (ascii_externals sample_doc) [].
Proof. apply list_elem_of_In. vm_compute. by left. Defined.

Lemma listing_target_path_every_label_witness :
  target_path first_sample_report [py "out"]
  = target_path_every_label first_sample_report [py "out"].
Proof.
  apply (@listing_target_path_every_label (ascii_externals sample_doc) []).
  apply first_sample_report_parsed.
Defined.

(** ** More on the filter *)

Lemma filter_all {A} (l : list A) : List.filter (λ _, true) l = l.
Proof. induction l as [|x l IH]; simpl; by f_equal. Qed.

Lemma filter_twice {A} (f g : A → bool) (l : list A) :
  List.filter g (List.filter f l) = List.filter (λ x, f x && g x) l.
Proof.
  induction l as [|x l IH]; simpl; [done|].
  destruct (f x); simpl; [|done]. destruct (g x); by rewrite IH.
Qed.

Section filter_more.
Context `{Externals}.

(** The filter as one pass of [List.filter]. *)
Lemma filter_reports_filter (reports : list Report)
      (years : option (list str)) (query : option str) :
  filter_reports reports years query
  = List.filter
      (λ r, match years with
            | Some (y :: ys) => year_filter (lower_set (y :: ys)) r
            | _ => true
            end
            && match query with
               | Some q =>
                   if truthy q then query_filter (str_lower q) r else true
               | None => true
               end) reports.
Proof.
  unfold filter_reports. rewrite fold_left_append_filter. simpl.
  apply filter_ext. intros r. f_equal.
  - destruct years as [[|y ys]|]; [done | | done]. apply negb_involutive.
  - destruct query as [q|]; [|done].
    destruct (truthy q); [|done]. apply negb_involutive.
Qed.

(** X14. Without an active filter (no years or an empty list of them, no
    query or an empty one) [filter_reports] returns its input. *)
Theorem filter_reports_inactive (reports : list Report) :
  filter_reports reports None None = reports
  ∧ filter_reports reports (Some []) None = reports
  ∧ filter_reports reports None (Some []) = reports
  ∧ filter_reports reports (Some []) (Some []) = reports.
Proof.
  split_and!; rewrite filter_reports_filter; apply filter_all.
Qed.

(** X15. Filtering by years and then by query, or by query and then by
    years, is filtering by both at once; and filtering twice with the same
    filters is filtering once. *)
Theorem filter_reports_compose (reports : list Report)
        (years : option (list str)) (query : option str) :
  filter_reports (filter_reports reports years None) None query
  = filter_reports reports years query
  ∧ filter_reports (filter_reports reports None query) years None
    = filter_reports reports years query
  ∧ filter_reports (filter_reports reports years query) years query
    = filter_reports reports years query.
Proof.
  split_and!; rewrite !filter_reports_filter, filter_twice;
    apply filter_ext; intros r.
  - by rewrite andb_true_r.
  - rewrite andb_true_r. simpl. apply andb_comm.
  - by rewrite andb_diag.
Qed.

(** X16. A year token that equals, in lower case, the year code or the
    year label of a Report (not the empty string) keeps that Report: code
    and label select alike, whatever the case. *)
Theorem filter_reports_own_year (reports : list Report) (tokens : list str)
        (r : Report) (value token : str) :
  r ∈ reports →
  year_code r = Some value ∨ year_label r = Some value →
  value ≠ [] →
  token ∈ tokens → str_lower token = str_lower value →
  r ∈ filter_reports reports (Some tokens) None.
Proof.
  intros Hr Hv Hne Ht E. apply filter_reports_elem.
  split_and!; [done | | done].
  destruct tokens as [|y ys]; [done|].
  apply year_filter_spec. exists value, token. split_and!; [|done|done].
  apply list_elem_of_In, filter_In. split; [|by destruct value].
  apply list_elem_of_In, list_elem_of_omap.
  exists (Some value). split; [|done].
  destruct Hv as [<- | <-]; [by left | right; by left].
Qed.
End filter_more.

Lemma filter_reports_own_year_witness :
  first_sample_report
  ∈ @filter_reports (ascii_externals sample_doc)
      (@parse_reports (ascii_externals sample_doc) [])
      (Some [py "1999"; py "Y2"]) None.
Proof.
  apply (@filter_reports_own_year (ascii_externals sample_doc) _ _ _
           (py "y2") (py "Y2")).
  - apply first_sample_report_parsed.
  - left. reflexivity.
  - discriminate.
  - right. left.
  - reflexivity.
Defined.

(** ** More on the download engine *)

Lemma is_dir_add_dir (p : Path) (w : World) : is_dir (add_dir p w) p = true.
Proof.
  assert (bool_decide (p ∈ fs_dirs (add_dir p w)) = true) as Hin.
  { apply bool_decide_eq_true. simpl. set_solver. }
  unfold is_dir. destruct p as [|c [|c' p]]; [done | | done].
  by rewrite Hin, orb_true_r.
Qed.

(** After a [mkdir] that returns, the directory is there. *)
Lemma mkdir_parents_is_dir (rp : list str) (w w' : World) (u : unit) :
  mkdir_parents rp w = (Returns u, w') → is_dir w' (reverse rp) = true.
Proof.
  destruct rp as [|c rparent]; unfold mkdir_parents; fold mkdir_parents;
    cbv zeta.
  - intros _. done.
  - destruct (is_dir w (reverse (c :: rparent))) eqn:Ed.
    { by intros [= _ <-]. }
    destruct (is_file w (reverse (c :: rparent))); [done|].
    destruct (is_file w (reverse rparent)); [done|].
    destruct (is_dir w (reverse rparent)).
    { intros [= _ <-]. apply is_dir_add_dir. }
    destruct (mkdir_parents rparent w) as [[[]|e] w1]; [|done].
    intros [= _ <-]. apply is_dir_add_dir.
Qed.

Lemma mkdir_is_dir (p : Path) (w w' : World) (u : unit) :
  mkdir p w = (Returns u, w') → is_dir w' p = true.
Proof.
  intros E%mkdir_parents_is_dir. by rewrite reverse_involutive in E.
Qed.

(** [mkdir] makes no directory longer than its own path. *)
Lemma mkdir_parents_dirs (rp : list str) (w : World) (q : Path) :
  q ∈ fs_dirs (mkdir_parents rp w).2 →
  q ∈ fs_dirs w ∨ (length q ≤ length rp)%nat.
Proof.
  induction rp as [|c rparent IH]; unfold mkdir_parents; fold mkdir_parents;
    cbv zeta.
  - destruct (is_dir w (reverse [])); [by left|].
    destruct (is_file w (reverse [])); by left.
  - destruct (is_dir w (reverse (c :: rparent))); [by left|].
    destruct (is_file w (reverse (c :: rparent))); [by left|].
    destruct (is_file w (reverse rparent)); [by left|].
    assert (∀ w1, q ∈ fs_dirs (add_dir (reverse (c :: rparent)) w1) →
                  q ∈ fs_dirs w1 ∨ (length q ≤ length (c :: rparent))%nat)
      as Hadd.
    { intros w1. simpl. intros [->%elem_of_singleton|?]%elem_of_union.
      - right. by rewrite length_reverse.
      - by left. }
    destruct (is_dir w (reverse rparent)); [apply Hadd|].
    destruct (mkdir_parents rparent w) as [[[]|e] w1]; simpl in *.
    + intros [Hq|Hq]%Hadd; [|by right].
      destruct (IH Hq) as [?|?]; [by left | right; lia].
    + intros Hq. destruct (IH Hq) as [?|?]; [by left | right; lia].
Qed.

Lemma is_dir_after_mkdir (p q : Path) (w : World) :
  (length p < length q)%nat → is_dir (mkdir p w).2 q = is_dir w q.
Proof.
  intros Hlen.
  assert (bool_decide (q ∈ fs_dirs (mkdir p w).2)
          = bool_decide (q ∈ fs_dirs w)) as Hin.
  { apply bool_decide_ext. split.
    - intros [?|Hq]%mkdir_parents_dirs; [done|].
      rewrite length_reverse in Hq. lia.
    - pose proof (mkdir_same p w) as (_ & _ & _ & Hd). set_solver. }
  unfold is_dir. destruct q as [|c [|c' q]]; by rewrite ?Hin.
Qed.

Lemma clean_not_root (name : str) : clean name → is_root name = false.
Proof.
  intros Hc%clean_no_slash. unfold is_root.
  apply orb_false_iff. split; apply bool_decide_eq_false; intros ->;
    apply Hc; by left.
Qed.

Lemma path_parent_snoc (directory : Path) (name : str) :
  is_root name = false → path_parent (directory ++ [name]) = directory.
Proof.
  intros Hn. destruct directory as [|d [|d' directory]]; simpl.
  - by rewrite Hn.
  - done.
  - change (d :: d' :: directory ++ [name])
      with ((d :: d' :: directory) ++ [name]).
    change (removelast ((d :: d' :: directory) ++ [name])
            = d :: d' :: directory).
    apply removelast_last.
Qed.

(** The target of a report and its parent directory. *)
Lemma target_path_parent (r : Report) (base_dir : Path) :
  ∃ target,
    target_path r base_dir = Some target
    ∧ (length (path_parent target) < length target)%nat.
Proof.
  destruct (target_path_parts r base_dir) as (name & _ & Hc & Ht).
  apply clean_not_root in Hc.
  eexists. split; [exact Ht|].
  destruct (year_label r) as [label|]; [destruct (truthy label)|].
  - replace (base_dir ++ [sanitize_directory_name label; name])
      with ((base_dir ++ [sanitize_directory_name label]) ++ [name])
      by by rewrite <- app_assoc.
    rewrite path_parent_snoc by done. rewrite !length_app. simpl. lia.
  - rewrite path_parent_snoc by done. rewrite length_app. simpl. lia.
  - rewrite path_parent_snoc by done. rewrite length_app. simpl. lia.
Qed.

Lemma write_spec (p : Path) (chunk : bytes) (w : World) (content : bytes) :
  fs_files w !! p = Some content →
  write p chunk w
  = (Returns (), set_files (<[p := content ++ chunk]> (fs_files w)) w).
Proof. intros Hp. unfold write, set_files, bytes in *. by rewrite Hp. Qed.

Lemma write_chunks_spec (p : Path) (url : str) (chunks : list bytes)
      (breaks : bool) (w : World) (content : bytes) :
  fs_files w !! p = Some content →
  write_chunks p url chunks breaks w
  = (if breaks then Raises (RequestException url) else Returns (),
     set_files (<[p := content ++ concat chunks]> (fs_files w)) w).
Proof.
  revert w content. induction chunks as [|chunk rest IH]; intros w content Hp.
  - simpl. rewrite app_nil_r, insert_id by done.
    destruct w. by destruct breaks.
  - simpl. unfold io_bind. destruct chunk as [|b chunk].
    + simpl. by apply IH.
    + rewrite (write_spec _ _ _ _ Hp).
      rewrite (IH _ (content ++ b :: chunk)) by apply lookup_insert_eq.
      unfold set_files. simpl.
      by rewrite insert_insert_eq, <- app_assoc.
Qed.

Lemma is_dir_dirs (w w' : World) (p : Path) :
  fs_dirs w' = fs_dirs w → is_dir w' p = is_dir w p.
Proof. intros E. unfold is_dir. by rewrite E. Qed.

Lemma is_file_insert (files : gmap Path bytes) (w : World) (p : Path)
      (content : bytes) :
  is_file (set_files (<[p := content]> files) w) p = true.
Proof.
  unfold is_file. apply bool_decide_eq_true. simpl.
  rewrite lookup_insert_eq. by eexists.
Qed.

Section download_more.
Context `{Externals}.

(** A call that gets as far as the body: one request, the target emptied
    and filled with the chunks that arrive, and the outcome decided by the
    connection. *)
Lemma download_single_streams (r : Report) (output_dir : Path)
      (overwrite : bool) (timeout : Z) (w w1 : World) (target : Path)
      (response : Response) :
  let url := urljoin BASE_URL (download_url r) in
  target_path r output_dir = Some target →
  mkdir (path_parent target) w = (Returns (), w1) →
  is_dir w target = false →
  overwrite = true ∨ is_file w target = false →
  remote w url = Some response →
  is_http_error response = false →
  _download_single r output_dir overwrite timeout w
  = (if stream_breaks response then Raises (RequestException url)
     else Returns target,
     set_files (<[target := concat (iter_content response)]> (fs_files w))
               (log_request url timeout w1)).
Proof.
  intros url Ht Em Hd Hnew Hremote Hok.
  destruct (target_path_parent r output_dir) as (target' & Ht' & Hlen).
  rewrite Ht in Ht'. injection Ht' as <-.
  pose proof (mkdir_same (path_parent target) w) as Hs.
  pose proof (is_dir_after_mkdir (path_parent target) target w Hlen) as Hd1.
  pose proof (mkdir_is_dir _ _ _ _ Em) as Hp1.
  rewrite Em in Hs, Hd1. simpl in Hs, Hd1.
  destruct Hs as (Hf & Hr & Hm & _).
  assert (is_file w1 target = is_file w target) as Hf1.
  { unfold is_file. by rewrite Hf. }
  unfold _download_single, io_bind. rewrite Ht. simpl. rewrite Em.
  unfold path_exists. rewrite Hd1, Hd, Hf1. simpl.
  assert (is_file w target && negb overwrite = false) as ->.
  { destruct Hnew as [-> | ->]; [apply andb_false_r | done]. }
  fold url. unfold requests_get. cbv zeta.
  fold (log_request url timeout w1). rewrite Hm, Hremote, Hok.
  unfold io_ret at 1. unfold open_wb.
  rewrite (is_dir_dirs w1 (log_request url timeout w1)) by done.
  rewrite (is_dir_dirs w1 (log_request url timeout w1)) by done.
  rewrite Hd1, Hd, Hp1. simpl.
  rewrite (write_chunks_spec _ _ _ _ _ []) by apply lookup_insert_eq.
  unfold io_ret, set_files. simpl.
  rewrite insert_insert_eq, Hf. by destruct (stream_breaks response).
Qed.

(** A target that is there with its parent directory is returned as it
    is, without a request. *)
Lemma download_single_skips (r : Report) (output_dir : Path) (timeout : Z)
      (w : World) (target : Path) :
  target_path r output_dir = Some target →
  is_dir w (path_parent target) = true →
  is_dir w target || is_file w target = true →
  _download_single r output_dir false timeout w = (Returns target, w).
Proof.
  intros Ht Hp Hex. unfold _download_single, io_bind. rewrite Ht. simpl.
  rewrite (mkdir_existing _ _ Hp). unfold path_exists. by rewrite Hex.
Qed.

(** X17. Where the target is not there (or overwrite is requested), its
    parent directory can be made, the remote side answers without an error
    status and the body arrives completely, [_download_single] sends
    exactly one request, to the download URL joined to the base URL, leaves
    in the target file the chunks of the response one after the other,
    touches no other file and returns the target path. *)
Theorem download_single_fetches (r : Report) (output_dir : Path)
        (overwrite : bool) (timeout : Z) (w w1 : World) (target : Path)
        (response : Response) :
  let url := urljoin BASE_URL (download_url r) in
  target_path r output_dir = Some target →
  mkdir (path_parent target) w = (Returns (), w1) →
  is_dir w target = false →
  overwrite = true ∨ is_file w target = false →
  remote w url = Some response →
  is_http_error response = false →
  stream_breaks response = false →
  _download_single r output_dir overwrite timeout w
  = (Returns target,
     set_files (<[target := concat (iter_content response)]> (fs_files w))
               (log_request url timeout w1)).
Proof.
  intros url Ht Em Hd Hnew Hremote Hok Hwhole.
  rewrite (download_single_streams r output_dir overwrite timeout w w1 target
             response) by done.
  fold url. by rewrite Hwhole.
Qed.

(** X18. With overwrite requested, a request that fails before the body is
    read, because [requests.get] raises or because the response has an
    error status, makes [_download_single] raise ([DownloadError] with the
    title for an error status) after that one request and before the target
    is opened: every file, an existing target included, is left as it
    was. *)
Theorem download_single_request_fails (r : Report) (output_dir : Path)
        (timeout : Z) (w w1 : World) (target : Path) :
  let url := urljoin BASE_URL (download_url r) in
  target_path r output_dir = Some target →
  mkdir (path_parent target) w = (Returns (), w1) →
  match remote w url with
  | Some response => is_http_error response = true
  | None => True
  end →
  _download_single r output_dir true timeout w
  = (Raises (match remote w url with
             | Some _ => DownloadError (title r)
             | None => RequestException url
             end),
     log_request url timeout w1)
  ∧ fs_files (log_request url timeout w1) = fs_files w.
Proof.
  intros url Ht Em Hfail.
  pose proof (mkdir_same (path_parent target) w) as Hs.
  rewrite Em in Hs. destruct Hs as (Hf & Hr & Hm & _). simpl in *.
  split; [|done].
  unfold _download_single, io_bind. rewrite Ht. simpl. rewrite Em.
  unfold path_exists. rewrite andb_false_r.
  fold url. unfold requests_get. cbv zeta.
  fold (log_request url timeout w1). rewrite Hm.
  destruct (remote w url) as [response|]; [|done].
  by rewrite Hfail.
Qed.

(** X19. A download that returned is settled: calling [_download_single]
    again for the same report without overwrite returns the same path,
    sends no request and leaves the world as it is. *)
Theorem download_single_settled (r : Report) (output_dir : Path)
        (overwrite : bool) (timeout timeout' : Z) (w w2 : World) (p : Path) :
  _download_single r output_dir overwrite timeout w = (Returns p, w2) →
  _download_single r output_dir false timeout' w2 = (Returns p, w2).
Proof.
  destruct (target_path_parent r output_dir) as (target & Ht & Hlen).
  pose proof (λ w', download_single_skips r output_dir timeout' w' target Ht)
    as Hagain.
  unfold _download_single at 1, io_bind. rewrite Ht. simpl.
  destruct (mkdir (path_parent target) w) as [[[]|e] w1] eqn:Em; [|done].
  pose proof (mkdir_is_dir _ _ _ _ Em) as Hp1.
  unfold path_exists.
  destruct ((is_dir w1 target || is_file w1 target) && negb overwrite)
    eqn:Eskip.
  - intros [= <- <-]. apply Hagain; [done|].
    by apply andb_true_iff in Eskip as [? _].
  - unfold requests_get. cbv zeta.
    set (url := urljoin BASE_URL (download_url r)).
    fold (log_request url timeout w1).
    destruct (remote w1 url) as [response|]; [|done].
    destruct (is_http_error response); [done|].
    unfold io_ret at 1. unfold open_wb.
    rewrite !(is_dir_dirs w1 (log_request url timeout w1)) by done.
    destruct (is_dir w1 target || negb (is_dir w1 (path_parent target)));
      [done|].
    rewrite (write_chunks_spec _ _ _ _ _ []) by apply lookup_insert_eq.
    destruct (stream_breaks response); [done|].
    unfold io_ret. intros [= <- <-]. apply Hagain.
    + by rewrite (is_dir_dirs w1).
    + rewrite is_file_insert. apply orb_true_r.
Qed.

(** X20. In live mode [download_reports] raises for a worker count of zero
    or less, before any request is sent and without touching a file. *)
Theorem download_reports_no_workers (reports : list Report)
        (output_dir : Path) (max_workers : Z) (overwrite : bool)
        (timeout : Z) (w : World) :
  max_workers ≤ 0 →
  ∃ e w1,
    download_reports reports output_dir max_workers overwrite false timeout w
    = (Raises e, w1)
    ∧ fs_files w1 = fs_files w ∧ requests_log w1 = requests_log w.
Proof.
  intros Hmw. pose proof (mkdir_same output_dir w) as (Hf & Hr & _).
  unfold download_reports, io_bind.
  destruct (mkdir output_dir w) as [[[]|e] w1]; simpl in *.
  - destruct (Z.leb_spec max_workers 0); [|lia]. by exists ValueError, w1.
  - by exists e, w1.
Qed.

(** X21. Where the response has no error status but the connection is lost
    while the body is read, [_download_single] raises after its one
    request with the target already opened for writing: the target holds
    the chunks that arrived and nothing else, what it held before is gone
    although the download failed, and no other file is touched.  A later
    call without overwrite finds the truncated file, sends no request and
    returns its path. *)
Theorem download_single_stream_breaks (r : Report) (output_dir : Path)
        (overwrite : bool) (timeout timeout' : Z) (w w1 : World)
        (target : Path) (response : Response) :
  let url := urljoin BASE_URL (download_url r) in
  let w2 :=
    set_files (<[target := concat (iter_content response)]> (fs_files w))
              (log_request url timeout w1) in
  target_path r output_dir = Some target →
  mkdir (path_parent target) w = (Returns (), w1) →
  is_dir w target = false →
  overwrite = true ∨ is_file w target = false →
  remote w url = Some response →
  is_http_error response = false →
  stream_breaks response = true →
  _download_single r output_dir overwrite timeout w
  = (Raises (RequestException url), w2)
  ∧ _download_single r output_dir false timeout' w2 = (Returns target, w2).
Proof.
  intros url w2 Ht Em Hd Hnew Hremote Hok Hbreaks. split.
  - rewrite (download_single_streams r output_dir overwrite timeout w w1
               target response) by done.
    fold url. by rewrite Hbreaks.
  - apply download_single_skips; [done | |].
    + unfold w2. rewrite (is_dir_dirs w1) by done.
      by eapply mkdir_is_dir.
    + unfold w2. rewrite is_file_insert. apply orb_true_r.
Qed.
End download_more.

Lemma download_single_fetches_witness :
  ∃ w2,
    @_download_single (ascii_externals []) sample_report [py "downloads"]
      false 60 empty_world = (Returns sample_target, w2)
    ∧ fs_files w2 = {[ sample_target := [1; 2; 3] ]}
    ∧ requests_log w2 = [(py "https://agp.gov.pk/file.pdf", 60)].
Proof.
  eexists. split.
  - apply (@download_single_fetches (ascii_externals []) sample_report
             [py "downloads"] false 60 empty_world
             (mkdir (path_parent sample_target) empty_world).2 sample_target
             {| status_code := 200; iter_content := [[1; 2]; []; [3]];
                stream_breaks := false |}).
    + vm_compute. reflexivity.
    + vm_compute. reflexivity.
    + vm_compute. reflexivity.
    + right. vm_compute. reflexivity.
    + reflexivity.
    + reflexivity.
    + reflexivity.
  - split; vm_compute; reflexivity.
Defined.

Lemma download_single_request_fails_witness :
  (∃ w2,
     @_download_single (ascii_externals []) sample_report [py "downloads"]
       true 60 failing_world
     = (Raises (DownloadError (title sample_report)), w2)
     ∧ fs_files w2 = fs_files failing_world)
  ∧ (∃ w2,
       @_download_single (ascii_externals []) sample_report [py "downloads"]
         true 60 existing_world
       = (Raises (RequestException (py "https://agp.gov.pk/file.pdf")), w2)
       ∧ fs_files w2 = fs_files existing_world).
Proof.
  split; eexists.
  - apply (@download_single_request_fails (ascii_externals []) sample_report
             [py "downloads"] 60 failing_world failing_world sample_target).
    + vm_compute. reflexivity.
    + vm_compute. reflexivity.
    + reflexivity.
  - apply (@download_single_request_fails (ascii_externals []) sample_report
             [py "downloads"] 60 existing_world existing_world sample_target).
    + vm_compute. reflexivity.
    + vm_compute. reflexivity.
    + exact I.
Defined.

Lemma download_single_settled_witness :
  let first :=
    @_download_single (ascii_externals []) sample_report [py "downloads"]
      false 60 empty_world in
  @_download_single (ascii_externals []) sample_report [py "downloads"]
    false 60 first.2
  = (Returns sample_target, first.2).
Proof.
  intros first.
  apply (@download_single_settled (ascii_externals []) sample_report
           [py "downloads"] false 60 60 empty_world).
  vm_compute. reflexivity.
Defined.

Lemma download_reports_no_workers_witness :
  ∃ e w1,
    @download_reports (ascii_externals []) [sample_report] [py "downloads"]
      0 false false 60 empty_world = (Raises e, w1)
    ∧ fs_files w1 = fs_files empty_world
    ∧ requests_log w1 = requests_log empty_world.
Proof.
  apply (@download_reports_no_workers (ascii_externals [])). lia.
Defined.

Lemma download_single_stream_breaks_witness :
  ∃ w2,
    @_download_single (ascii_externals []) sample_report [py "downloads"]
      true 60 breaking_world
    = (Raises (RequestException (py "https://agp.gov.pk/file.pdf")), w2)
    ∧ fs_files breaking_world !! sample_target = Some [37; 80; 68; 70]
    ∧ fs_files w2 !! sample_target = Some [1; 2; 3]
    ∧ @_download_single (ascii_externals []) sample_report [py "downloads"]
        false 60 w2
      = (Returns sample_target, w2).
Proof.
  eexists.
  destruct (@download_single_stream_breaks (ascii_externals []) sample_report
              [py "downloads"] true 60 60 breaking_world breaking_world
              sample_target
              {| status_code := 200; iter_content := [[1; 2]; []; [3]];
                 stream_breaks := true |}) as [Hfirst Hagain].
  - vm_compute. reflexivity.
  - vm_compute. reflexivity.
  - vm_compute. reflexivity.
  - by left.
  - reflexivity.
  - reflexivity.
  - reflexivity.
  - split; [exact Hfirst|]. split; [vm_compute; reflexivity|].
    split; [vm_compute; reflexivity | exact Hagain].
Defined.
